(** * Part identification and classification engine

    A shallow embedding of [parts_converter.py] (class [PartsListConverter])
    and [component_classifier.py] (class [ComponentClassifier]), with the
    properties of the engine stated and proved over it.

    Modelling conventions.
    - Python [str] is Rocq [string].  A string literal is the UTF-8 byte
      sequence of the text, so the Japanese labels of the program are
      written as they stand in the source.  Character classes, case folding
      and white space are the ASCII ones.  Python's tables go further:
      [\d] also matches the decimal digits of other scripts, [str.strip]
      and [\s] also remove the white space beyond ASCII.  A property that
      depends on these classes is stated for ASCII text ([ascii_text]) or
      for text without such white space ([ascii_spaced]).
    - Python [int] is [Z].  The expression [int(a / b)] divides in double
      precision and truncates: [int_div] rounds the quotient to 53
      significant bits, ties to even, raises [OverflowError] from 2^1024 on
      and then drops the fraction.  Below 2^53 this is the truncated
      quotient.
    - A [pandas.DataFrame] is the list of its rows, each with its index
      label, an integer; the cells are text, as after [normalize_dataframe],
      where [pd.isna] is false.  [df.iterrows()] yields the labels,
      [df.iloc] counts positions: the two agree on a frame with the default
      index, not on one from which [normalize_dataframe] has dropped rows.
    - A Python [dict] is a [gmap]; exceptions are the [Raise] results of a
      small error monad. *)

From Stdlib Require Import ZArith Ascii String List Lia Bool.
From stdpp Require Import gmap strings.

Local Open Scope Z_scope.

(** ** Exceptions *)

Inductive exn :=
  ZeroDivisionError | OverflowError | IndexError | AttributeError | TypeError.

Inductive result (A : Type) :=
| Ok (a : A)
| Raise (e : exn).
Arguments Ok {A} a.
Arguments Raise {A} e.

Global Instance result_ret : MRet result := λ A a, Ok a.
Global Instance result_bind : MBind result := λ A B f m,
  match m with
  | Ok a => f a
  | Raise e => Raise e
  end.

(** ** Python [str] primitives

    The character classes are those of ASCII text; see [ascii_text] and
    [ascii_spaced] for the text on which they are Python's. *)

Module Str.

Definition code (c : ascii) : nat := nat_of_ascii c.

Definition in_range (lo hi c : ascii) : bool :=
  (code lo <=? code c)%nat && (code c <=? code hi)%nat.

Definition is_upper (c : ascii) : bool := in_range "A" "Z" c.
Definition is_lower (c : ascii) : bool := in_range "a" "z" c.
Definition is_digit (c : ascii) : bool := in_range "0" "9" c.

(** [str.isspace] on ASCII: TAB..CR, FS..US and the blank. *)
Definition is_space (c : ascii) : bool :=
  in_range "009" "013" c || in_range "028" "032" c.

Definition lower_char (c : ascii) : ascii :=
  if is_upper c then ascii_of_nat (code c + 32) else c.
Definition upper_char (c : ascii) : ascii :=
  if is_lower c then ascii_of_nat (code c - 32) else c.

(** [s.lower()] *)
Fixpoint lower (s : string) : string :=
  match s with
  | EmptyString => EmptyString
  | String c s' => String (lower_char c) (lower s')
  end.

(** [s.upper()] *)
Fixpoint upper (s : string) : string :=
  match s with
  | EmptyString => EmptyString
  | String c s' => String (upper_char c) (upper s')
  end.

Fixpoint lstrip (s : string) : string :=
  match s with
  | EmptyString => EmptyString
  | String c s' => if is_space c then lstrip s' else s
  end.

Fixpoint rstrip (s : string) : string :=
  match s with
  | EmptyString => EmptyString
  | String c s' =>
      match rstrip s' with
      | EmptyString => if is_space c then EmptyString else String c EmptyString
      | t => String c t
      end
  end.

(** [s.strip()], for the white space of ASCII *)
Definition strip (s : string) : string := rstrip (lstrip s).

(** [needle in hay] *)
Fixpoint contains (needle hay : string) : bool :=
  String.prefix needle hay ||
  match hay with
  | EmptyString => false
  | String _ hay' => contains needle hay'
  end.

(** [s.split(sep)] for a one-character separator *)
Fixpoint split (sep : ascii) (s : string) : list string :=
  match s with
  | EmptyString => [EmptyString]
  | String c s' =>
      let rest := split sep s' in
      if Ascii.eqb c sep then EmptyString :: rest
      else match rest with
           | h :: t => String c h :: t
           | [] => [String c EmptyString]
           end
  end.

(** [sep.join(parts)] *)
Definition join (sep : string) (parts : list string) : string :=
  String.concat sep parts.

(** The first [n] characters, [s[:n]]. *)
Fixpoint take (n : nat) (s : string) : string :=
  match n, s with
  | S n', String c s' => String c (take n' s')
  | _, _ => EmptyString
  end.

(** Truth value of a string: [bool(s)]. *)
Definition nonempty (s : string) : bool :=
  match s with
  | EmptyString => false
  | String _ _ => true
  end.

End Str.

(** ** The fragment of Python's [re] the program uses

    Backtracking matcher with greedy repetition, as in [re]: the first
    successful path in the order "longest repetition first, left
    alternative first" is the match.  [ic] is the [re.IGNORECASE] flag. *)

Module Re.

Inductive charset :=
| CChar (c : ascii)          (* a literal character *)
| CRange (lo hi : ascii)     (* [lo-hi] *)
| COneOf (cs : string)       (* [abc] *)
| CDigit                     (* \d, on ASCII text *)
| CSpace                     (* \s, on ASCII text *)
| CAny.                      (* . *)

Inductive regex :=
| Eps
| Chr (cs : charset)
| Bol                        (* ^ *)
| Seq (r1 r2 : regex)
| Alt (r1 r2 : regex)
| Star (r : regex).          (* r* *)

Fixpoint mem_string (c : ascii) (s : string) : bool :=
  match s with
  | EmptyString => false
  | String d s' => Ascii.eqb c d || mem_string c s'
  end.

Definition charset_test (cs : charset) (c : ascii) : bool :=
  match cs with
  | CChar d => Ascii.eqb c d
  | CRange lo hi => Str.in_range lo hi c
  | COneOf s => mem_string c s
  | CDigit => Str.is_digit c
  | CSpace => Str.is_space c
  | CAny => negb (Ascii.eqb c "010")
  end.

(** Under [re.IGNORECASE] a character also matches through its other case. *)
Definition charset_mem (ic : bool) (cs : charset) (c : ascii) : bool :=
  charset_test cs c ||
  (ic && (charset_test cs (Str.lower_char c) || charset_test cs (Str.upper_char c))).

(** [re_match ic r i s k]: match [r] at offset [i] of the subject, [s] being
    the text from [i] on, then continue with [k] on the offset and text
    after the match; [None] makes the matcher backtrack.  An iteration of
    [Star] that consumes nothing ends the repetition. *)
Fixpoint re_match {A : Type} (ic : bool) (r : regex) (i : nat) (s : string)
    (k : nat → string → option A) : option A :=
  match r with
  | Eps => k i s
  | Chr cs =>
      match s with
      | String c s' => if charset_mem ic cs c then k (S i) s' else None
      | EmptyString => None
      end
  | Bol => if (i =? 0)%nat then k i s else None
  | Seq r1 r2 => re_match ic r1 i s (fun j t => re_match ic r2 j t k)
  | Alt r1 r2 =>
      match re_match ic r1 i s k with
      | Some a => Some a
      | None => re_match ic r2 i s k
      end
  | Star r1 =>
      (fix loop (fuel : nat) (i : nat) (s : string) {struct fuel} : option A :=
         match fuel with
         | O => k i s
         | S fuel' =>
             match re_match ic r1 i s
                     (fun j t => if (j =? i)%nat then None else loop fuel' j t) with
             | Some a => Some a
             | None => k i s
             end
         end) (String.length s) i s
  end.

(** Derived forms. *)
Definition Plus (r : regex) : regex := Seq r (Star r).        (* r+ *)
Definition Opt (r : regex) : regex := Alt r Eps.              (* r? *)

(** [r{n}] followed by [tail] *)
Fixpoint times (n : nat) (r tail : regex) : regex :=
  match n with
  | O => tail
  | S n' => Seq r (times n' r tail)
  end.

(** up to [n] further greedy copies of [r] *)
Fixpoint upto (n : nat) (r : regex) : regex :=
  match n with
  | O => Eps
  | S n' => Opt (Seq r (upto n' r))
  end.

Definition Rep (lo hi : nat) (r : regex) : regex :=           (* r{lo,hi} *)
  times lo r (upto (hi - lo) r).
Definition RepFrom (lo : nat) (r : regex) : regex :=          (* r{lo,} *)
  times lo r (Star r).

(** A literal word. *)
Fixpoint Lit (s : string) : regex :=
  match s with
  | EmptyString => Eps
  | String c EmptyString => Chr (CChar c)
  | String c s' => Seq (Chr (CChar c)) (Lit s')
  end.

(** One attempt at offset [i]: the end offset of the match.  With
    [must_advance] an empty match is refused. *)
Definition match_at (ic : bool) (r : regex) (must_advance : bool)
    (i : nat) (s : string) : option nat :=
  re_match ic r i s
    (fun j _ => if must_advance && (j =? i)%nat then None else Some j).

(** [re.search(r, s, flags)] as a truth value: is there a match at some
    offset? *)
Fixpoint search_from (ic : bool) (r : regex) (i : nat) (s : string) : bool :=
  match match_at ic r false i s with
  | Some _ => true
  | None =>
      match s with
      | EmptyString => false
      | String _ s' => search_from ic r (S i) s'
      end
  end.

Definition search (ic : bool) (r : regex) (s : string) : bool :=
  search_from ic r 0 s.

(** [re.findall(r, s, flags)] for a pattern without groups: the texts of
    the successive non-overlapping matches, scanning left to right.  [skip]
    counts the characters of the current match still to be passed.  After
    an empty match the scanner retries the same offset for a non-empty
    one before moving on. *)
Fixpoint findall_from (ic : bool) (r : regex) (i : nat) (s : string)
    (skip : nat) : list string :=
  match skip with
  | S skip' =>
      match s with
      | EmptyString => []
      | String _ s' => findall_from ic r (S i) s' skip'
      end
  | O =>
      let next (n : nat) :=
        match s with
        | EmptyString => []
        | String _ s' => findall_from ic r (S i) s' n
        end in
      match match_at ic r false i s with
      | None => next O
      | Some j =>
          if (j =? i)%nat then
            EmptyString ::
              match match_at ic r true i s with
              | Some j' => Str.take (j' - i) s :: next (j' - i - 1)%nat
              | None => next O
              end
          else Str.take (j - i) s :: next (j - i - 1)%nat
      end
  end.

Definition findall (ic : bool) (r : regex) (s : string) : list string :=
  findall_from ic r 0 s 0.

End Re.

(** ** [parts_converter.py]: class [PartsListConverter] *)

Import Re.

(** Values stored in a template row: text and integers. *)
Inductive value :=
| VStr (s : string)
| VInt (z : Z).

(** A row of text cells, and a data frame: its rows in order, each with
    its index label. *)
Definition Row : Type := list string.
Definition DataFrame : Type := list (Z * Row).

(** [df.iloc[i]]: the row at position [i], counted from the end when [i] is
    negative. *)
Definition iloc (df : DataFrame) (i : Z) : result Row :=
  let n := Z.of_nat (length df) in
  let position := if i <? 0 then n + i else i in
  if (0 <=? position) && (position <? n) then
    match df !! Z.to_nat position with
    | Some (_, row) => Ok row
    | None => Raise IndexError
    end
  else Raise IndexError.

Definition upper_letter : regex := Chr (CRange "A" "Z").       (* [A-Z] *)
Definition digit : regex := Chr CDigit.                        (* \d *)
Definition dash : regex := Chr (CChar "-").

(** The [patterns] table of [detect_part_numbers], in its order. *)
Definition patterns : list (regex * Z) :=
  [ (* [A-Z]{2,6}\d{2,8}[A-Z]*\d*[A-Z]*-?[A-Z]*\d* *)
    (Seq (Rep 2 6 upper_letter) (Seq (Rep 2 8 digit) (Seq (Star upper_letter)
       (Seq (Star digit) (Seq (Star upper_letter) (Seq (Opt dash)
       (Seq (Star upper_letter) (Star digit))))))), 20);
    (* [A-Z]+\d+[A-Z]+\d+[A-Z]* *)
    (Seq (Plus upper_letter) (Seq (Plus digit) (Seq (Plus upper_letter)
       (Seq (Plus digit) (Star upper_letter)))), 15);
    (* [A-Z]{3,}\d{2,}[A-Z]* *)
    (Seq (RepFrom 3 upper_letter) (Seq (RepFrom 2 digit) (Star upper_letter)), 10);
    (* [A-Z]+\d+[A-Z]*-[A-Z]*\d* *)
    (Seq (Plus upper_letter) (Seq (Plus digit) (Seq (Star upper_letter)
       (Seq dash (Seq (Star upper_letter) (Star digit))))), 12);
    (* [A-Z]+\d+ *)
    (Seq (Plus upper_letter) (Plus digit), 5) ].

(** [[A-Z]{2,}.*\d{3,}.*[A-Z]], searched without [re.IGNORECASE]. *)
Definition bonus_pattern : regex :=
  Seq (RepFrom 2 upper_letter) (Seq (Star (Chr CAny))
    (Seq (RepFrom 3 digit) (Seq (Star (Chr CAny)) upper_letter))).

Definition non_part_labels : list string :=
  ["item"; "manufacturer"; "quantity"; "description"; "reference"].

Definition string_in (s : string) (l : list string) : bool :=
  existsb (String.eqb s) l.

Definition len (s : string) : Z := Z.of_nat (String.length s).

(** The score the loop body gives one match of a pattern with base score
    [base_score]. *)
Definition match_confidence (base_score : Z) (m : string) : Z :=
  let c := base_score + len m in
  let c := if search false bonus_pattern m then c + 10 else c in
  if 8 <? len m then c + 5 else c.

(** The running best: [(found_part, confidence)]. *)
Definition best : Type := option string * Z.

Definition consider (base_score : Z) (b : best) (m : string) : best :=
  let current_confidence := match_confidence base_score m in
  if snd b <? current_confidence then (Some m, current_confidence) else b.

Definition scan_pattern (cell_str : string) (b : best) (p : regex * Z) : best :=
  fold_left (consider (snd p)) (findall true (fst p) cell_str) b.

Definition scan_cell (b : best) (cell_value : string) : best :=
  if String.eqb (Str.strip cell_value) "" then b
  else
    let cell_str := Str.strip cell_value in
    if string_in (Str.lower cell_str) non_part_labels then b
    else fold_left (scan_pattern cell_str) patterns b.

(** The part of one row: the best match over its cells, if any. *)
Definition detect_row (row : Row) : option string :=
  match fst (fold_left scan_cell row (None, 0)) with
  | Some found_part => if Str.nonempty found_part then Some found_part else None
  | None => None
  end.

(** The loop over [df.iterrows()]: [idx] is the index label of the row. *)
Fixpoint detect_part_numbers (df : DataFrame) : list (Z * string) :=
  match df with
  | [] => []
  | (idx, row) :: df' =>
      match detect_row row with
      | Some found_part => (idx, found_part) :: detect_part_numbers df'
      | None => detect_part_numbers df'
      end
  end.

(** A designator letter, [[RCLUDQJXYFT]], and one designator. *)
Definition ref_letter : regex := Chr (COneOf "RCLUDQJXYFT").
Definition ref_token : regex := Seq ref_letter (Plus digit).   (* [RCLUDQJXYFT]\d+ *)

Definition ref_patterns : list regex :=
  [ (* [RCLUDQJXYFT]\d+(?:[,;]\s*[RCLUDQJXYFT]\d+)* *)
    Seq ref_token (Star (Seq (Chr (COneOf ",;")) (Seq (Star (Chr CSpace)) ref_token)));
    (* [RCLUDQJXYFT]\d+(?:\s*[,;]\s*[RCLUDQJXYFT]\d+)* *)
    Seq ref_token (Star (Seq (Star (Chr CSpace)) (Seq (Chr (COneOf ",;"))
       (Seq (Star (Chr CSpace)) ref_token))));
    (* [RCLUDQJXYFT]\d+(?:-[RCLUDQJXYFT]\d+)* *)
    Seq ref_token (Star (Seq dash ref_token)) ].

(** The running best of the extractor: [(best_match, max_refs)]. *)
Definition ref_consider (b : string * Z) (m : string) : string * Z :=
  let ref_count := Z.of_nat (length (findall false ref_token m)) in
  if snd b <? ref_count then (m, ref_count) else b.

Definition ref_scan_pattern (cell_str : string) (b : string * Z) (pattern : regex)
    : string * Z :=
  fold_left ref_consider (findall true pattern cell_str) b.

Definition ref_scan_cell (b : string * Z) (cell_value : string) : string * Z :=
  fold_left (ref_scan_pattern (Str.strip cell_value)) ref_patterns b.

Definition best_ref_match (row : Row) : string :=
  fst (fold_left ref_scan_cell row (EmptyString, 0)).

Definition format_refs (best_match : string) : string :=
  if Str.nonempty best_match
  then Str.join "," (findall true ref_token best_match)
  else best_match.

Definition extract_reference_designators (df : DataFrame) (part_idx : Z)
    : result string :=
  row ← iloc df part_idx;
  Ok (format_refs (best_ref_match row)).

Definition count_references (ref_string : string) : Z :=
  if Str.nonempty ref_string
  then Z.of_nat (length (filter (λ r, Str.nonempty (Str.strip r) = true)
                                (Str.split "," ref_string)))
  else 0.

(** [2^k], and 1 for a negative [k]: a quotient is scaled by [2^k] on the
    side where the power is whole. *)
Definition pow2 (k : Z) : Z := 2 ^ Z.max 0 k.

(** The binary exponent of [a / b] for positive [a] and [b]: the [e] with
    [2^e ≤ a / b < 2^(e+1)]. *)
Definition quotient_exponent (a b : Z) : Z :=
  let e := Z.log2 a - Z.log2 b in
  if a * pow2 (- e) <? b * pow2 e then e - 1 else e.

(** [n / d] rounded to the nearest integer, a tie to the even one. *)
Definition round_half_even (n d : Z) : Z :=
  let q := n `div` d in
  let r := n `mod` d in
  if 2 * r <? d then q
  else if d <? 2 * r then q + 1
  else if Z.even q then q else q + 1.

(** [a / b] on positive [int]s: the double nearest to the quotient, given
    as [(m, s)] for [m * 2^s] with [m] of 53 bits. *)
Definition true_divide (a b : Z) : Z * Z :=
  let s := quotient_exponent a b - 52 in
  (round_half_even (a * pow2 (- s)) (b * pow2 s), s).

(** [int(x)] on the double [m * 2^s]: the fraction is dropped. *)
Definition int_of (x : Z * Z) : Z := (x.1 * pow2 x.2) `div` pow2 (- x.2).

(** [int(a / b)]: a zero divisor raises [ZeroDivisionError], a quotient
    that rounds to 2^1024 or more raises [OverflowError] ("integer division
    result too large for a float"). *)
Definition int_div (a b : Z) : result Z :=
  if b =? 0 then Raise ZeroDivisionError
  else if a =? 0 then Ok 0
  else
    let x := true_divide (Z.abs a) (Z.abs b) in
    if 2 ^ 1024 * pow2 (- x.2) <=? x.1 * pow2 x.2 then Raise OverflowError
    else Ok (Z.sgn a * Z.sgn b * int_of x).

Definition calculate_quantity (ref_count : Z) (required_qty : option Z)
    (panel_count : Z) : result Z :=
  match required_qty with
  | Some q =>
      if 0 <? q then (d ← int_div q panel_count; Ok (Z.max 1 d))
      else if 0 <? ref_count then (d ← int_div ref_count panel_count; Ok (Z.max 1 d))
      else Ok 1
  | None =>
      if 0 <? ref_count then (d ← int_div ref_count panel_count; Ok (Z.max 1 d))
      else Ok 1
  end.

Definition common_manufacturers : list string :=
  ["KOA"; "Murata"; "TDK"; "Panasonic"; "Vishay"; "Yageo"; "Rohm"; "Taiyo Yuden";
   "Samsung"; "Nichicon"; "Rubycon"; "KEMET"; "AVX"; "Bourns"; "Coilcraft"].

(** The inner [for ... break] loop: the first listed name found in the cell. *)
Definition first_manufacturer (cell_str : string) : option string :=
  find (λ manufacturer, Str.contains (Str.lower manufacturer) (Str.lower cell_str))
       common_manufacturers.

(** One cell of the row labelled [idx]: a hit assigns [manufacturers[idx]]. *)
Definition manufacturer_cell (idx : Z) (manufacturers : gmap Z string)
    (cell_value : string) : gmap Z string :=
  match first_manufacturer (Str.strip cell_value) with
  | Some manufacturer => <[idx := manufacturer]> manufacturers
  | None => manufacturers
  end.

(** The loop over [df.iterrows()]. *)
Fixpoint manufacturer_rows (df : DataFrame) (manufacturers : gmap Z string)
    : gmap Z string :=
  match df with
  | [] => manufacturers
  | (idx, row) :: df' =>
      manufacturer_rows df' (fold_left (manufacturer_cell idx) row manufacturers)
  end.

Definition detect_manufacturers (df : DataFrame) : gmap Z string :=
  manufacturer_rows df ∅.

(** ** [component_classifier.py]: class [ComponentClassifier] *)

Record component_info := {
  info_patterns : list regex;
  info_defaults : gmap string string
}.

(** A designator prefix anchored at the start, like [^R\d+]. *)
Definition anchored (prefix : string) : regex := Seq Bol (Seq (Lit prefix) (Plus digit)).
(** A series prefix anywhere, like [RK\d+]. *)
Definition series (prefix : string) : regex := Seq (Lit prefix) (Plus digit).

Definition type_defaults (name package : string) : gmap string string :=
  list_to_map [("品名", name); ("部品型番", package); ("実装/検査", "実装")].

(** [self.component_patterns], in insertion order. *)
Definition component_patterns : list (string * component_info) :=
  [ ("resistor",
      {| info_patterns := [anchored "R"; series "RK"; series "RC"; series "RF";
                           series "RN"; Lit "resistor"; Lit "抵抗"];
         info_defaults := type_defaults "チップ抵抗" "SMD" |});
    ("capacitor",
      {| info_patterns := [anchored "C"; series "CC"; series "CG"; Lit "capacitor";
                           Lit "コンデンサ"];
         info_defaults := type_defaults "チップコンデンサ" "SMD" |});
    ("inductor",
      {| info_patterns := [anchored "L"; series "LK"; Lit "inductor"; Lit "インダクタ"];
         info_defaults := type_defaults "チップインダクタ" "SMD" |});
    ("diode",
      {| info_patterns := [anchored "D"; series "BAS"; series "BAT"; Lit "diode";
                           Lit "ダイオード"];
         info_defaults := type_defaults "ダイオード" "SMD" |});
    ("transistor",
      {| info_patterns := [anchored "Q"; anchored "T"; series "BSS"; series "BC";
                           Lit "transistor"; Lit "トランジスタ"];
         info_defaults := type_defaults "トランジスタ" "SMD" |});
    ("ic",
      {| info_patterns := [anchored "U"; anchored "IC"; Lit "ATmega"; series "PIC";
                           Lit "STM32"; series "LM"; series "TL"];
         info_defaults := type_defaults "IC" "SMD" |});
    ("connector",
      {| info_patterns := [anchored "J"; anchored "CN"; anchored "P"; Lit "connector";
                           Lit "コネクタ"];
         info_defaults := type_defaults "コネクタ" "DIP" |});
    ("crystal",
      {| info_patterns := [anchored "X"; anchored "Y"; Lit "crystal"; Lit "水晶";
                           Lit "クリスタル"];
         info_defaults := type_defaults "水晶振動子" "SMD" |}) ].

(** [self.manufacturer_defaults] *)
Definition manufacturer_defaults : gmap string (gmap string string) :=
  list_to_map
    [ ("KOA", {["品名" := "チップ抵抗"]});
      ("Murata", {["品名" := "チップコンデンサ"]});
      ("TDK", {["品名" := "チップコンデンサ"]});
      ("Panasonic", {["品名" := "チップコンデンサ"]});
      ("Yageo", {["品名" := "チップ抵抗"]});
      ("Vishay", {["品名" := "チップ抵抗"]}) ].

(** The two nested [for] loops with their [return]: the first component
    type, in table order, one of whose patterns is found in [text]. *)
Definition first_match (text : string) : option (string * component_info) :=
  find (λ entry, existsb (λ pattern, search true pattern text)
                         (info_patterns (snd entry)))
       component_patterns.

(** Truth value of a field, [if v:]. *)
Definition truthy (v : value) : bool :=
  match v with
  | VStr s => Str.nonempty s
  | VInt z => negb (z =? 0)
  end.

(** [if v: for ... re.search(pattern, v, re.IGNORECASE) ...]; [re.search]
    raises [TypeError] on a value that is not text. *)
Definition match_field (v : value) : result (option (string * component_info)) :=
  if truthy v then
    match v with
    | VStr s => Ok (first_match s)
    | VInt _ => Raise TypeError
    end
  else Ok None.

(** [defaults.update(other)] *)
Definition update (defaults other : gmap string string) : gmap string string :=
  other ∪ defaults.

Definition base_defaults : gmap string string :=
  list_to_map [("品名", ""); ("部品型番", "SMD"); ("実装/検査", "実装")].

Definition classify_component (part_number manufacturer ref_designator : value)
    : result (gmap string string) :=
  let defaults := base_defaults in
  by_ref ← match_field ref_designator;
  match by_ref with
  | Some (_, info) => Ok (update defaults (info_defaults info))
  | None =>
      by_part ← match_field part_number;
      match by_part with
      | Some (_, info) => Ok (update defaults (info_defaults info))
      | None =>
          match manufacturer with
          | VStr m =>
              match manufacturer_defaults !! m with
              | Some d => Ok (update defaults d)
              | None => Ok defaults
              end
          | VInt _ => Ok defaults
          end
      end
  end.

Definition bga_patterns : list string := ["BGA"; "FBGA"; "UBGA"; "CBGA"].
Definition dip_patterns : list string :=
  ["DIP"; "PDIP"; "SOIC"; "SOP"; "SSOP"; "TSSOP"; "QFP"; "LQFP"; "TQFP"].
Definition smd_sizes : list string :=
  ["0201"; "0402"; "0603"; "0805"; "1206"; "1210"; "2010"; "2512"].

Definition detect_package_type (part_number manufacturer : value) : result string :=
  match part_number with
  | VInt _ => Raise AttributeError
  | VStr p =>
      let part_upper := Str.upper p in
      if existsb (λ pattern, Str.contains pattern part_upper) bga_patterns
      then Ok "組込(BGA他)"
      else if existsb (λ pattern, Str.contains pattern part_upper) dip_patterns
      then Ok "DIP"
      else if existsb (λ size, Str.contains size part_upper) smd_sizes
      then Ok "SMD"
      else Ok "SMD"
  end.

(** [row_data.get(key, '')] *)
Definition get (row_data : gmap string value) (key : string) : value :=
  default (VStr "") (row_data !! key).

(** [not v.strip()]; only text has [strip]. *)
Definition blank (v : value) : result bool :=
  match v with
  | VStr s => Ok (negb (Str.nonempty (Str.strip s)))
  | VInt _ => Raise AttributeError
  end.

(** One turn of the loop over [defaults.items()]. *)
Definition apply_default (acc : result (gmap string value)) (item : string * string)
    : result (gmap string value) :=
  row_data ← acc;
  b ← blank (get row_data item.1);
  Ok (if b : bool then <[item.1 := VStr item.2]> row_data else row_data).

(** [enhance_component_data], with the package detector of [self] as a
    parameter. *)
Definition enhance_with (detect : value → value → result string)
    (row_data : gmap string value) : result (gmap string value) :=
  let part_number := get row_data "電子部品型番" in
  let manufacturer := get row_data "メーカー" in
  let ref_designator := get row_data "配置記号" in
  defaults ← classify_component part_number manufacturer ref_designator;
  row_data ← foldl apply_default (Ok row_data) (map_to_list defaults);
  b ← blank (get row_data "部品型番");
  if b : bool then
    package ← detect part_number manufacturer;
    Ok (<["部品型番" := VStr package]> row_data)
  else Ok row_data.

Definition enhance_component_data (row_data : gmap string value)
    : result (gmap string value) :=
  enhance_with detect_package_type row_data.

(** ** [map_to_template] *)

Definition template_row (idx : Z) (manufacturer part_number ref_designators : string)
    (qty_total qty_1_unit : Z) : gmap string value :=
  list_to_map
    [ ("No", VInt idx);
      ("メーカー", VStr manufacturer);
      ("品名", VStr "");
      ("電子部品型番", VStr part_number);
      ("配置記号", VStr ref_designators);
      ("個", VInt qty_total);
      ("実装数", VInt qty_1_unit);
      ("合計", VInt qty_total);
      ("実装/検査", VStr "実装");
      ("部品型番", VStr "SMD");
      ("必要数", VInt qty_1_unit) ].

(** The body of the loop over [enumerate(part_numbers, 1)]. *)
Definition template_entry (df : DataFrame) (manufacturers : gmap Z string)
    (panel_count : Z) (idx : Z) (row_idx : Z) (part_number : string)
    : result (gmap string value) :=
  ref_designators ← extract_reference_designators df row_idx;
  let ref_count := count_references ref_designators in
  let manufacturer := default "" (manufacturers !! row_idx) in
  qty_1_unit ← calculate_quantity ref_count None panel_count;
  let qty_total := qty_1_unit * panel_count in
  enhance_component_data
    (template_row idx manufacturer part_number ref_designators qty_total qty_1_unit).

Fixpoint template_rows (df : DataFrame) (manufacturers : gmap Z string)
    (panel_count : Z) (idx : Z) (part_numbers : list (Z * string))
    : result (list (gmap string value)) :=
  match part_numbers with
  | [] => Ok []
  | (row_idx, part_number) :: rest =>
      template_row ← template_entry df manufacturers panel_count idx row_idx part_number;
      template_data ← template_rows df manufacturers panel_count (idx + 1) rest;
      Ok (template_row :: template_data)
  end.

Definition map_to_template (df : DataFrame) (panel_count : Z)
    : result (list (gmap string value)) :=
  let part_numbers := detect_part_numbers df in
  let manufacturers := detect_manufacturers df in
  template_rows df manufacturers panel_count 1 part_numbers.

(** [get_component_category] *)
Definition categories : gmap string string :=
  list_to_map
    [ ("resistor", "抵抗器"); ("capacitor", "コンデンサ"); ("inductor", "インダクタ");
      ("diode", "ダイオード"); ("transistor", "トランジスタ"); ("ic", "IC");
      ("connector", "コネクタ"); ("crystal", "水晶振動子") ].

Definition get_component_category (part_number ref_designator : string) : string :=
  match (if Str.nonempty ref_designator then first_match ref_designator else None) with
  | Some (component_type, _) => default "" (categories !! component_type)
  | None =>
      match (if Str.nonempty part_number then first_match part_number else None) with
      | Some (component_type, _) => default "" (categories !! component_type)
      | None => ""
      end
  end.

(** ** Notions used to state the properties *)

(** The rule of the specification, in its words: the explicit quantity if
    provided and positive, else the reference count if positive, each
    divided by the panel count, rounded down and raised to at least 1;
    else 1. *)
Definition per_unit_rule (ref_count : Z) (explicit_qty : option Z) (panel_count : Z) : Z :=
  match explicit_qty with
  | Some q =>
      if decide (0 < q) then Z.max 1 (q `div` panel_count)
      else if decide (0 < ref_count) then Z.max 1 (ref_count `div` panel_count)
      else 1
  | None =>
      if decide (0 < ref_count) then Z.max 1 (ref_count `div` panel_count) else 1
  end.

(** A call is rejected when it raises. *)
Definition rejected {A} (r : result A) : Prop := ∃ e, r = Raise e.

(** The quantity that gets divided, if any: the explicit quantity when
    given and positive, else the reference count when positive. *)
Definition divided (ref_count : Z) (required_qty : option Z) : bool :=
  match required_qty with
  | Some q => (0 <? q) || (0 <? ref_count)
  | None => 0 <? ref_count
  end.

(** The quantity itself, 0 when none is divided. *)
Definition dividend (ref_count : Z) (required_qty : option Z) : Z :=
  match required_qty with
  | Some q => if 0 <? q then q else Z.max 0 ref_count
  | None => Z.max 0 ref_count
  end.

(** Text of ASCII characters only: on it the digits, letters and white
    space of the model are those of Python. *)
Fixpoint ascii_text (s : string) : bool :=
  match s with
  | EmptyString => true
  | String c s' => (Str.code c <? 128)%nat && ascii_text s'
  end.

Definition ascii_row (row : Row) : bool := forallb ascii_text row.

Definition ascii_frame (df : DataFrame) : bool := forallb (λ r, ascii_row r.2) df.

(** The UTF-8 form of a character, from its bytes. *)
Definition utf8 (bytes : list nat) : string :=
  string_of_list_ascii (map ascii_of_nat bytes).

(** The white space [str.strip] removes beyond ASCII: U+0085, U+00A0,
    U+1680, U+2000 to U+200A, U+2028, U+2029, U+202F, U+205F and U+3000. *)
Definition wide_spaces : list string :=
  ([utf8 [194; 133]; utf8 [194; 160]; utf8 [225; 154; 128]]
   ++ map (λ b, utf8 [226; 128; b]) (seq 128 11)
   ++ [utf8 [226; 128; 168]; utf8 [226; 128; 169]; utf8 [226; 128; 175];
       utf8 [226; 129; 159]; utf8 [227; 128; 128]])%nat.

(** Text with no white space other than ASCII's: on it [Str.strip] is
    Python's [strip]. *)
Definition ascii_spaced (s : string) : bool :=
  forallb (λ w, negb (Str.contains w s)) wide_spaces.

Definition ascii_spaced_value (v : value) : bool :=
  match v with
  | VStr s => ascii_spaced s
  | VInt _ => true
  end.

(** The largest size of a Python object, [sys.maxsize]; every cell of a
    sized frame is at most that long, as every [str] is. *)
Definition sys_maxsize : Z := 2 ^ 63 - 1.

Definition sized_row (row : Row) : bool :=
  forallb (λ cell, len cell <=? sys_maxsize) row.

Definition sized (df : DataFrame) : bool := forallb (λ r, sized_row r.2) df.

(** An index label that is also a position of the frame, for [df.iloc]. *)
Definition position_of (df : DataFrame) (idx : Z) : bool :=
  (- Z.of_nat (length df) <=? idx) && (idx <? Z.of_nat (length df)).

(** Every index label is a position, as with the default index. *)
Definition positional (df : DataFrame) : bool :=
  forallb (λ r, position_of df r.1) df.

(** Text values, and the fields [enhance_component_data] reads as text. *)
Definition is_text (v : value) : bool :=
  match v with
  | VStr _ => true
  | VInt _ => false
  end.

Definition text_keys : list string :=
  ["電子部品型番"; "配置記号"; "品名"; "部品型番"; "実装/検査"].

Definition text_fields (row_data : gmap string value) : Prop :=
  forallb (λ key, is_text (get row_data key)) text_keys = true.

(** An empty field: text that is empty or white space only. *)
Definition empty_field (v : value) : bool :=
  match v with
  | VStr s => negb (Str.nonempty (Str.strip s))
  | VInt _ => false
  end.

(** What the loop over the defaults leaves in the row under [key]. *)
Definition filled_in (defaults : gmap string string) (row : gmap string value)
    (key : string) : option value :=
  match defaults !! key with
  | Some d => if empty_field (get row key) then Some (VStr d) else row !! key
  | None => row !! key
  end.

Definition default_keys : list string := ["品名"; "部品型番"; "実装/検査"].

(** The package a category label stands for: DIP for connectors. *)
Definition package_of (category : string) : string :=
  if String.eqb category "コネクタ" then "DIP" else "SMD".

(** What matters of a defaults map: its keys and its package. *)
Definition defaults_for (category : string) (d : gmap string string) : Prop :=
  dom d = list_to_set default_keys ∧ d !! "部品型番" = Some (package_of category).

(** The quantity fields of a record agree with a per-unit quantity. *)
Definition quantities_of (panel_count : Z) (r : gmap string value) : Prop :=
  ∃ per_unit,
    r !! "実装数" = Some (VInt per_unit)
    ∧ r !! "必要数" = Some (VInt per_unit)
    ∧ r !! "合計" = Some (VInt (per_unit * panel_count))
    ∧ r !! "個" = Some (VInt (per_unit * panel_count))
    ∧ 1 ≤ per_unit.

(** What a pattern denotes: [matches ic r i w] when [r] can match the text
    [w] at offset [i] of the subject. *)
Inductive matches (ic : bool) : regex → nat → string → Prop :=
| matches_eps i : matches ic Eps i ""
| matches_chr cs c i :
    charset_mem ic cs c = true → matches ic (Chr cs) i (String c "")
| matches_bol : matches ic Bol 0 ""
| matches_seq r1 r2 i w1 w2 :
    matches ic r1 i w1 → matches ic r2 (i + String.length w1) w2 →
    matches ic (Seq r1 r2) i (w1 +:+ w2)
| matches_alt_l r1 r2 i w : matches ic r1 i w → matches ic (Alt r1 r2) i w
| matches_alt_r r1 r2 i w : matches ic r2 i w → matches ic (Alt r1 r2) i w
| matches_star_nil r i : matches ic (Star r) i ""
| matches_star_cons r i w1 w2 :
    matches ic r i w1 → matches ic (Star r) (i + String.length w1) w2 →
    matches ic (Star r) i (w1 +:+ w2).

(** [s[n:]] *)
Fixpoint drop (n : nat) (s : string) : string :=
  match n, s with
  | S n', String _ s' => drop n' s'
  | _, _ => s
  end.

(** The texts [ms] lie in [s] one after the other, in this order and
    without overlap, and each satisfies [P]. *)
Inductive scattered (P : string → Prop) : list string → string → Prop :=
| scattered_nil s : scattered P [] s
| scattered_cons pre m ms s :
    P m → scattered P ms s → scattered P (m :: ms) (pre +:+ m +:+ s).

(** The texts [r] denotes at some offset. *)
Definition denoted (ic : bool) (r : regex) (m : string) : Prop :=
  ∃ i, matches ic r i m.

(** [m] is a piece of [s]. *)
Definition substring_of (m s : string) : Prop := ∃ pre post, s = pre +:+ m +:+ post.

Fixpoint all_digits (s : string) : bool :=
  match s with
  | EmptyString => true
  | String c s' => Str.is_digit c && all_digits s'
  end.

(** One designator: a letter code of the extractor, in either case, then
    one or more digits. *)
Definition designator (t : string) : bool :=
  match t with
  | EmptyString => false
  | String c ds =>
      mem_string (Str.upper_char c) "RCLUDQJXYFT" && Str.nonempty ds && all_digits ds
  end.

(** The designators a canonical string lists. *)
Definition designators (s : string) : list string := Str.split "," s.

(** The running best of the extractor is empty or a piece of a cell. *)
Definition from_row (row : Row) (b : string * Z) : Prop :=
  b.1 = "" ∨ ∃ cell, cell ∈ row ∧ substring_of b.1 (Str.strip cell).

(** ** Tactics *)

(** The 256 characters, one by one. *)
Ltac each_char c := destruct c as [[] [] [] [] [] [] [] []].

(** Membership in a list given in full. *)
Ltac in_list := apply list_elem_of_In; simpl; tauto.

(** ** Notions for the further properties *)

(** The cells [detect_part_numbers] passes over: blank ones and column
    labels. *)
Definition skipped (cell_value : string) : bool :=
  String.eqb (Str.strip cell_value) ""
  || string_in (Str.lower (Str.strip cell_value)) non_part_labels.

(** The candidate matches of a cell and of a row, in the order the loops
    visit them, each with the base score of its pattern. *)
Definition cell_candidates (cell_value : string) : list (Z * string) :=
  if skipped cell_value then []
  else flat_map (λ p, map (pair (snd p)) (findall true (fst p) (Str.strip cell_value)))
                patterns.

Definition row_candidates (row : Row) : list (Z * string) :=
  flat_map cell_candidates row.

Definition confidence (c : Z * string) : Z := match_confidence c.1 c.2.

(** One turn of a "keep the best so far" loop: [x] replaces the running
    best when it scores strictly higher. *)
Definition pick {A X : Type} (sel : X → A) (score : X → Z) (b : A * Z) (x : X)
    : A * Z :=
  if snd b <? score x then (sel x, score x) else b.

(** [c] is the first entry of [l] with the highest score. *)
Definition first_best {X : Type} (score : X → Z) (c : X) (l : list X) : Prop :=
  ∃ before after, l = before ++ c :: after
    ∧ Forall (λ x, score x < score c) before
    ∧ Forall (λ x, score x ≤ score c) after.

(** The least number of characters a match of [r] has. *)
Fixpoint min_len (r : regex) : nat :=
  match r with
  | Eps | Bol | Star _ => 0
  | Chr _ => 1
  | Seq r1 r2 => min_len r1 + min_len r2
  | Alt r1 r2 => Nat.min (min_len r1) (min_len r2)
  end.

(** Some character of [s] satisfies [P]. *)
Fixpoint str_exists (P : ascii → bool) (s : string) : bool :=
  match s with
  | EmptyString => false
  | String c s' => P c || str_exists P s'
  end.

(** Every character the class accepts satisfies [P]. *)
Definition class_within (ic : bool) (cs : charset) (P : ascii → bool) : bool :=
  forallb (λ n, implb (charset_mem ic cs (ascii_of_nat n)) (P (ascii_of_nat n)))
          (seq 0 256).

(** Every match of [r] has a character satisfying [P]; a sufficient
    syntactic test. *)
Fixpoint must_have (ic : bool) (P : ascii → bool) (r : regex) : bool :=
  match r with
  | Eps | Bol | Star _ => false
  | Chr cs => class_within ic cs P
  | Seq r1 r2 => must_have ic P r1 || must_have ic P r2
  | Alt r1 r2 => must_have ic P r1 && must_have ic P r2
  end.

Definition is_letter (c : ascii) : bool := Str.is_upper c || Str.is_lower c.

(** The candidate matches of the designator extractor over a row, in scan
    order, and the count that ranks them. *)
Definition ref_candidates (row : Row) : list string :=
  flat_map (λ cell, flat_map (λ pattern, findall true pattern (Str.strip cell))
                             ref_patterns) row.

Definition ref_count (m : string) : Z :=
  Z.of_nat (length (findall false ref_token m)).

(** A piece that counts: not blank. *)
Definition nonblank (piece : string) : bool := Str.nonempty (Str.strip piece).

(** A cell names a known manufacturer. *)
Definition names_manufacturer (cell_value : string) : bool :=
  existsb (λ manufacturer,
             Str.contains (Str.lower manufacturer) (Str.lower (Str.strip cell_value)))
          common_manufacturers.

(** A row labelled [idx] names a manufacturer. *)
Definition named (idx : Z) (df : DataFrame) : bool :=
  existsb (λ r, (r.1 =? idx) && existsb names_manufacturer r.2) df.

(** The entries of a defaults map that every classification fixes. *)
Definition classified (category : string) (d : gmap string string) : Prop :=
  dom d = list_to_set default_keys
  ∧ d !! "実装/検査" = Some "実装"
  ∧ d !! "部品型番" = Some (package_of category)
  ∧ (category ≠ "" → ∃ name, d !! "品名" = Some name ∧ name ≠ "").

(** The package the tokens of a part number in upper case stand for. *)
Definition package_by_tokens (part_upper : string) : string :=
  if Str.contains "BGA" part_upper then "組込(BGA他)"
  else if Str.contains "DIP" part_upper || Str.contains "SOIC" part_upper
          || Str.contains "SOP" part_upper || Str.contains "QFP" part_upper
  then "DIP"
  else "SMD".

(** The record of the [k]-th reported part, whose row has the label [i]:
    its sequence number, its part number, the designators of the row at
    position [i] and the manufacturer detected under the label [i]. *)
Definition record_of (df : DataFrame) (k : nat) (i : Z) (part : string)
    (r : gmap string value) : Prop :=
  ∃ refs, extract_reference_designators df i = Ok refs
    ∧ r !! "No" = Some (VInt (Z.of_nat k + 1))
    ∧ r !! "電子部品型番" = Some (VStr part)
    ∧ r !! "配置記号" = Some (VStr refs)
    ∧ r !! "メーカー" = Some (VStr (default "" (detect_manufacturers df !! i))).

(** Some reported row has a designator. *)
Definition has_designators (df : DataFrame) : Prop :=
  ∃ i part refs, (i, part) ∈ detect_part_numbers df
    ∧ extract_reference_designators df i = Ok refs ∧ refs ≠ "".

(** The characters of a canonical designator string, and its shape: only
    letters, digits and commas, every letter followed by a digit. *)
Definition allowed (c : ascii) : bool :=
  is_letter c || Str.is_digit c || Ascii.eqb c ",".

Fixpoint canon (s : string) : bool :=
  match s with
  | EmptyString => true
  | String a t =>
      allowed a
      && (negb (is_letter a)
          || match t with
             | String b _ => Str.is_digit b
             | EmptyString => false
             end)
      && canon t
  end.

(** The classes of the first [n] characters of every match of [r], with
    the number of characters still asked for when every match of [r] is
    shorter; [None] when the pattern does not fix them. *)
Fixpoint lead (r : regex) (n : nat) : option (list charset * nat) :=
  match n with
  | O => Some ([], O)
  | S n' =>
      match r with
      | Eps | Bol => Some ([], n)
      | Chr cs => Some ([cs], n')
      | Seq r1 r2 =>
          match lead r1 n with
          | Some (l1, m) =>
              match lead r2 m with
              | Some (l2, m') => Some (l1 ++ l2, m')
              | None => None
              end
          | None => None
          end
      | Alt _ _ | Star _ => None
      end
  end.

(** A pattern of the form [^L\d+] for one letter [L]. *)
Definition anchored_letter (r : regex) : option ascii :=
  match r with
  | Seq Bol (Seq (Chr (CChar l)) (Seq (Chr CDigit) (Star (Chr CDigit)))) => Some l
  | _ => None
  end.

(** A pattern that cannot be found in a canonical designator string: its
    matches begin with two letters, or with a character such a string
    does not have. *)
Definition never_in_canon (r : regex) : bool :=
  match lead r 2 with
  | Some ([a; b], _) =>
      (class_within true a is_letter && class_within true b is_letter)
      || class_within true a (λ c, negb (allowed c))
  | _ => false
  end.

(** Every pattern of the classifier is of one of these two kinds. *)
Definition pattern_kind_ok (r : regex) : bool :=
  match anchored_letter r with
  | Some l => Str.is_upper l
  | None => never_in_canon r
  end.

(** Whether a pattern is found in a canonical string that begins with the
    letter [c]. *)
Definition found_by_letter (c : ascii) (r : regex) : bool :=
  match anchored_letter r with
  | Some l => Ascii.eqb (Str.upper_char c) l
  | None => false
  end.

(** The category label the classifier gives to a designator letter, if
    any. *)
Definition letter_category (c : ascii) : option string :=
  match find (λ entry, existsb (found_by_letter c) (info_patterns (snd entry)))
             component_patterns with
  | Some (component_type, _) => Some (default "" (categories !! component_type))
  | None => None
  end.

(** A key that differs from every entry of a list given in full. *)
Ltac not_in_list :=
  let H := fresh in
  intros H; apply list_elem_of_In in H; simpl in H;
  repeat (destruct H as [H|H]; [discriminate H|]); exact H.

(** * Properties *)

(** ** Quantities *)

Lemma pow2_pos (k : Z) : 0 < pow2 k.
Proof. unfold pow2. apply Z.pow_pos_nonneg; lia. Qed.

Lemma pow2_nonneg (k : Z) : 0 ≤ k → pow2 k = 2 ^ k.
Proof. intros H. unfold pow2. by rewrite Z.max_r. Qed.

Lemma pow2_nonpos (k : Z) : k ≤ 0 → pow2 k = 1.
Proof. intros H. unfold pow2. by rewrite Z.max_l. Qed.

(** [2^e ≤ a / b] for the exponent [e] of the quotient. *)
Lemma quotient_exponent_lower (a b : Z) :
  0 < a → 0 < b →
  b * pow2 (quotient_exponent a b) ≤ a * pow2 (- quotient_exponent a b).
Proof.
  intros Ha Hb. unfold quotient_exponent.
  destruct (Z.log2_spec a Ha) as [Hla _]. destruct (Z.log2_spec b Hb) as [_ Hlb].
  pose proof (Z.log2_nonneg a) as Hna. pose proof (Z.log2_nonneg b) as Hnb.
  set (la := Z.log2 a) in *. set (lb := Z.log2 b) in *.
  destruct (Z.ltb_spec (a * pow2 (- (la - lb))) (b * pow2 (la - lb))) as [Hlt|Hge];
    [|lia].
  destruct (Z_le_gt_dec 1 (la - lb)) as [He|He].
  - rewrite (pow2_nonneg (la - lb - 1)), (pow2_nonpos (- (la - lb - 1))) by lia.
    assert (2 ^ la = 2 ^ (lb + 1) * 2 ^ (la - lb - 1)) as Hpow.
    { rewrite <- Z.pow_add_r by lia. f_equal. lia. }
    pose proof (Z.pow_pos_nonneg 2 (la - lb - 1) ltac:(lia) ltac:(lia)). nia.
  - rewrite (pow2_nonpos (la - lb - 1)), (pow2_nonneg (- (la - lb - 1))) by lia.
    assert (2 ^ (lb + 1) = 2 ^ la * 2 ^ (- (la - lb - 1))) as Hpow.
    { rewrite <- Z.pow_add_r by lia. f_equal. lia. }
    pose proof (Z.pow_pos_nonneg 2 (- (la - lb - 1)) ltac:(lia) ltac:(lia)). nia.
Qed.

(** The rounded quotient is within one half of the quotient. *)
Lemma round_half_even_near (n d : Z) :
  0 < d →
  2 * d * round_half_even n d ≤ 2 * n + d ∧ 2 * n ≤ 2 * d * round_half_even n d + d.
Proof.
  intros Hd. unfold round_half_even.
  pose proof (Z.div_mod n d ltac:(lia)) as Hdm.
  pose proof (Z.mod_pos_bound n d Hd) as Hmod.
  revert Hdm Hmod. generalize (n `div` d) as q, (n `mod` d) as r. intros q r Hdm Hmod.
  destruct (Z.ltb_spec (2 * r) d); [nia|].
  destruct (Z.ltb_spec d (2 * r)); [nia|].
  destruct (Z.even q); nia.
Qed.

Lemma true_divide_nonneg (a b : Z) : 0 < a → 0 < b → 0 ≤ int_of (true_divide a b).
Proof.
  intros Ha Hb. unfold true_divide, int_of. cbn [fst snd].
  set (s := quotient_exponent a b - 52).
  pose proof (pow2_pos s) as Hs. pose proof (pow2_pos (- s)) as Hs'.
  destruct (round_half_even_near (a * pow2 (- s)) (b * pow2 s) ltac:(nia)) as [_ Hlow].
  set (m := round_half_even _ _) in *.
  apply Z.div_pos; [|done]. assert (0 ≤ m); nia.
Qed.

(** Below 2^53 the division in double precision is exact: truncating the
    double gives the quotient of the integers. *)
Lemma true_divide_exact (a b : Z) :
  0 < a < 2 ^ 53 → 0 < b →
  int_of (true_divide a b) = a `div` b.
Proof.
  intros [Ha Ha53] Hb. unfold true_divide, int_of. cbn [fst snd].
  pose proof (quotient_exponent_lower a b Ha Hb) as He.
  set (e := quotient_exponent a b) in *.
  assert (Hle : e ≤ 52).
  { destruct (Z_le_gt_dec e 52) as [|Hgt]; [done|]. exfalso.
    rewrite (pow2_nonneg e), (pow2_nonpos (- e)) in He by lia.
    assert (2 ^ 53 ≤ 2 ^ e) by (apply Z.pow_le_mono_r; lia). nia. }
  rewrite (pow2_nonpos (e - 52)), (pow2_nonneg (- (e - 52))) by lia.
  rewrite !Z.mul_1_r.
  set (K := 2 ^ (- (e - 52))).
  assert (HK : 0 < K) by (apply Z.pow_pos_nonneg; lia).
  assert (HbK : b < 2 * K).
  { destruct (Z_le_gt_dec 0 e) as [Hpos|Hneg].
    - rewrite (pow2_nonneg e), (pow2_nonpos (- e)) in He by lia.
      assert (2 ^ 53 = 2 ^ e * (2 * K)) as Hpow.
      { unfold K. rewrite <- (Z.pow_succ_r 2), <- Z.pow_add_r by lia. f_equal. lia. }
      pose proof (Z.pow_pos_nonneg 2 e ltac:(lia) ltac:(lia)). nia.
    - rewrite (pow2_nonpos e), (pow2_nonneg (- e)) in He by lia.
      assert (2 * K = 2 ^ 53 * 2 ^ (- e)) as Hpow.
      { unfold K. rewrite <- (Z.pow_succ_r 2), <- Z.pow_add_r by lia. f_equal. lia. }
      pose proof (Z.pow_pos_nonneg 2 (- e) ltac:(lia) ltac:(lia)). nia. }
  destruct (round_half_even_near (a * K) b Hb) as [Hup Hlow].
  set (m := round_half_even (a * K) b) in *.
  pose proof (Z.div_mod a b ltac:(lia)) as Hdm.
  pose proof (Z.mod_pos_bound a b Hb) as Hmod.
  symmetry. apply (Z.div_unique_pos m K (a `div` b) (m - K * (a `div` b))); [|lia].
  revert Hdm Hmod. generalize (a `div` b) as q, (a `mod` b) as r.
  intros q r Hdm Hmod. split; nia.
Qed.

(** Below 2^1023 the quotient stays in the range of a double. *)
Lemma true_divide_bounded (a b : Z) :
  0 < a < 2 ^ 1023 → 0 < b →
  (true_divide a b).1 * pow2 (true_divide a b).2
    < 2 ^ 1024 * pow2 (- (true_divide a b).2).
Proof.
  intros [Ha Hbound] Hb. unfold true_divide. cbn [fst snd].
  pose proof (quotient_exponent_lower a b Ha Hb) as He.
  set (e := quotient_exponent a b) in *.
  pose proof (pow2_pos (e - 52)) as Hs. pose proof (pow2_pos (- (e - 52))) as Hs'.
  destruct (round_half_even_near (a * pow2 (- (e - 52))) (b * pow2 (e - 52))
              ltac:(nia)) as [Hup Hlow].
  set (m := round_half_even _ _) in *.
  assert (H1024 : 2 ^ 1024 = 2 * 2 ^ 1023) by (by rewrite <- (Z.pow_succ_r 2)).
  destruct (Z_le_gt_dec (e - 52) 0) as [Hneg|Hpos].
  - rewrite (pow2_nonpos (e - 52)) in * by lia.
    assert (m ≤ a * pow2 (- (e - 52))) by nia. nia.
  - rewrite (pow2_nonpos (- (e - 52))) in * by lia.
    rewrite (pow2_nonneg e), (pow2_nonpos (- e)) in He by lia.
    rewrite (pow2_nonneg (e - 52)) in * by lia.
    assert (2 ^ (e - 52) ≤ 2 ^ e) by (apply Z.pow_le_mono_r; lia).
    nia.
Qed.

(** What [int(a / b)] can do for a divisor other than 0: return a number
    with the sign of the quotient, or overflow on a dividend of 2^1023 or
    more. *)
Lemma int_div_cases (a b : Z) :
  b ≠ 0 →
  (∃ m, 0 ≤ m ∧ int_div a b = Ok (Z.sgn a * Z.sgn b * m))
  ∨ (int_div a b = Raise OverflowError ∧ 2 ^ 1023 ≤ Z.abs a).
Proof.
  intros Hb. unfold int_div.
  destruct (Z.eqb_spec b 0) as [|_]; [done|].
  destruct (Z.eqb_spec a 0) as [->|Ha]; [left; by exists 0|].
  set (x := true_divide (Z.abs a) (Z.abs b)).
  destruct (Z.leb_spec (2 ^ 1024 * pow2 (- x.2)) (x.1 * pow2 x.2)) as [Hov|_].
  - right. split; [done|]. destruct (Z_le_gt_dec (2 ^ 1023) (Z.abs a)); [done|].
    pose proof (true_divide_bounded (Z.abs a) (Z.abs b) ltac:(lia) ltac:(lia)).
    fold x in H. lia.
  - left. exists (int_of x). split; [|done]. apply true_divide_nonneg; lia.
Qed.

Lemma int_div_pos (a b : Z) :
  0 ≤ a < 2 ^ 53 → 1 ≤ b → int_div a b = Ok (a `div` b).
Proof.
  intros Ha Hb. unfold int_div.
  destruct (Z.eqb_spec b 0) as [|_]; [lia|].
  destruct (Z.eqb_spec a 0) as [->|Hne]; [done|].
  rewrite (Z.abs_eq a), (Z.abs_eq b) by lia.
  assert (2 ^ 53 < 2 ^ 1023) by (apply Z.pow_lt_mono_r; lia).
  pose proof (true_divide_bounded a b ltac:(lia) ltac:(lia)) as Hov.
  destruct (Z.leb_spec (2 ^ 1024 * pow2 (- (true_divide a b).2))
              ((true_divide a b).1 * pow2 (true_divide a b).2)); [lia|].
  rewrite true_divide_exact by lia.
  rewrite (Z.sgn_pos a), (Z.sgn_pos b) by lia. f_equal. lia.
Qed.

(** A positive dividend below 2^1023 and a divisor of 1 or more: a result
    that is not negative. *)
Lemma int_div_sized (a b : Z) :
  0 ≤ a < 2 ^ 1023 → b ≠ 0 →
  ∃ d, int_div a b = Ok d ∧ (0 < b → 0 ≤ d) ∧ (b < 0 → d ≤ 0).
Proof.
  intros Ha Hb.
  destruct (int_div_cases a b Hb) as [(m & Hm & ->)|[_ Hbig]]; [|lia].
  eexists; split; [done|]. split; intros Hs.
  - rewrite (Z.sgn_pos b) by done. pose proof (Z.sgn_nonneg a). nia.
  - rewrite (Z.sgn_neg b) by done. pose proof (Z.sgn_nonneg a). nia.
Qed.

Lemma calculate_quantity_ok (ref_count panel_count : Z) :
  ref_count < 2 ^ 1023 → panel_count ≠ 0 →
  ∃ q, calculate_quantity ref_count None panel_count = Ok q ∧ 1 ≤ q.
Proof.
  intros Hr Hp. unfold calculate_quantity.
  destruct (Z.ltb_spec 0 ref_count); [|eexists; split; [done|lia]].
  destruct (int_div_sized ref_count panel_count) as (d & -> & _); [lia|done|].
  simpl. eexists; split; [done|lia].
Qed.

(** C6, as stated, fails: the quotient is formed in double precision, so
    an explicit quantity of 2^53 + 1 on one panel comes out as 2^53, not as
    the quantity itself. *)
Lemma calculate_quantity_rounds_large_quantity :
  calculate_quantity 0 (Some (2 ^ 53 + 1)) 1 = Ok (2 ^ 53)
  ∧ Z.max 1 ((2 ^ 53 + 1) `div` 1) = 2 ^ 53 + 1
  ∧ ¬ (∀ ref_count explicit_qty panel_count,
         0 ≤ ref_count → 1 ≤ panel_count →
         calculate_quantity ref_count explicit_qty panel_count
           = Ok (per_unit_rule ref_count explicit_qty panel_count)).
Proof.
  assert (H : calculate_quantity 0 (Some (2 ^ 53 + 1)) 1 = Ok (2 ^ 53))
    by (vm_compute; reflexivity).
  split; [exact H|]. split; [vm_compute; reflexivity|].
  intros Hall. rewrite (Hall 0 (Some (2 ^ 53 + 1)) 1) in H by lia.
  vm_compute in H. discriminate H.
Qed.

(** C6, amended.  For [ref_count ≥ 0], any (possibly absent) explicit
    quantity and [panel_count ≥ 1], when the quantity that gets divided is
    below 2^53, [calculate_quantity] returns the per-unit quantity of the
    rule: the explicit quantity if given and positive, else the reference
    count if positive, divided by the panel count, rounded down and raised
    to at least 1, else 1.  The result is at least 1, and the three sample
    calls give 2, 5 and 1. *)
Theorem calculate_quantity_rule (ref_count : Z) (explicit_qty : option Z)
    (panel_count : Z) :
  0 ≤ ref_count → 1 ≤ panel_count →
  dividend ref_count explicit_qty < 2 ^ 53 →
  calculate_quantity ref_count explicit_qty panel_count
    = Ok (per_unit_rule ref_count explicit_qty panel_count)
  ∧ 1 ≤ per_unit_rule ref_count explicit_qty panel_count
  ∧ calculate_quantity 16 None 8 = Ok 2
  ∧ calculate_quantity 0 (Some 40) 8 = Ok 5
  ∧ calculate_quantity 0 None 8 = Ok 1.
Proof.
  intros Hr Hp Hd. split; [|split; [|repeat split; vm_compute; reflexivity]].
  - unfold calculate_quantity, per_unit_rule. unfold dividend in Hd.
    destruct explicit_qty as [q|].
    + destruct (Z.ltb_spec 0 q); case_decide; try lia.
      * by rewrite int_div_pos by lia.
      * destruct (Z.ltb_spec 0 ref_count); case_decide; try lia; [|done].
        by rewrite int_div_pos by lia.
    + destruct (Z.ltb_spec 0 ref_count); case_decide; try lia; [|done].
      by rewrite int_div_pos by lia.
  - unfold per_unit_rule. repeat case_match; lia.
Qed.

Lemma calculate_quantity_rule_witness :
  calculate_quantity 16 None 8 = Ok (per_unit_rule 16 None 8)
  ∧ 1 ≤ per_unit_rule 16 None 8
  ∧ calculate_quantity 16 None 8 = Ok 2
  ∧ calculate_quantity 0 (Some 40) 8 = Ok 5
  ∧ calculate_quantity 0 None 8 = Ok 1.
Proof. apply (calculate_quantity_rule 16 None 8); [lia|lia|reflexivity]. Defined.

(** C3, as stated, fails: with a panel count of -8 the calculation is not
    rejected, it returns 1. *)
Lemma calculate_quantity_accepts_bad_panel_count :
  calculate_quantity 16 None (-8) = Ok 1
  ∧ ¬ (∀ ref_count required_qty panel_count,
         panel_count < 1 →
         rejected (calculate_quantity ref_count required_qty panel_count)).
Proof.
  assert (H : calculate_quantity 16 None (-8) = Ok 1) by (vm_compute; reflexivity).
  split; [exact H|].
  intros Hall. destruct (Hall 16 None (-8)) as [e He]; [lia|].
  rewrite H in He. discriminate He.
Qed.

(** The division of a positive quantity by a panel count below 1. *)
Lemma calculate_quantity_divide (a panel_count : Z) :
  0 < a → panel_count < 1 →
  (a < 2 ^ 1023 →
   (d ← int_div a panel_count; Ok (Z.max 1 d))
     = if panel_count =? 0 then Raise ZeroDivisionError else Ok 1)
  ∧ ∀ e, (d ← int_div a panel_count; Ok (Z.max 1 d)) = Raise e →
      e = ZeroDivisionError ∧ panel_count = 0
      ∨ e = OverflowError ∧ 2 ^ 1023 ≤ a.
Proof.
  intros Ha Hp. destruct (Z.eqb_spec panel_count 0) as [->|Hne].
  - split; [done|]. intros e [= <-]. by left.
  - destruct (int_div_cases a panel_count Hne) as [(m & Hm & ->)|[-> Hbig]].
    + rewrite (Z.sgn_pos a), (Z.sgn_neg panel_count) by lia. simpl.
      split; [|done]. intros _. f_equal. lia.
    + split; [lia|]. intros e [= <-]. right. split; [done|lia].
Qed.

(** C3, amended.  [calculate_quantity] does not validate [panel_count]:
    for every [panel_count < 1] and a quantity below 2^1023 it returns 1,
    except that a panel count of 0 raises [ZeroDivisionError] when there is
    a positive quantity to divide.  Whatever the quantity, nothing else is
    raised but the [OverflowError] of the division on a quantity of 2^1023
    or more.  Keeping the panel count at 1 or more is left to the caller. *)
Theorem calculate_quantity_unvalidated (ref_count : Z) (required_qty : option Z)
    (panel_count : Z) :
  panel_count < 1 →
  (dividend ref_count required_qty < 2 ^ 1023 →
   calculate_quantity ref_count required_qty panel_count
     = if (panel_count =? 0) && divided ref_count required_qty
       then Raise ZeroDivisionError else Ok 1)
  ∧ ∀ e, calculate_quantity ref_count required_qty panel_count = Raise e →
      e = ZeroDivisionError ∧ panel_count = 0
      ∨ e = OverflowError ∧ 2 ^ 1023 ≤ dividend ref_count required_qty.
Proof.
  intros Hp. unfold calculate_quantity, divided, dividend.
  destruct required_qty as [q|].
  - destruct (Z.ltb_spec 0 q).
    + destruct (calculate_quantity_divide q panel_count) as [Hsmall Herr]; [done..|].
      split; [|done]. intros Hq. rewrite Hsmall by done. simpl.
      by rewrite andb_true_r.
    + destruct (Z.ltb_spec 0 ref_count).
      * destruct (calculate_quantity_divide ref_count panel_count)
          as [Hsmall Herr]; [done..|].
        rewrite Z.max_r by lia.
        split; [|done]. intros Hq. rewrite Hsmall by done. simpl.
        by rewrite andb_true_r.
      * split; [|done]. simpl. by rewrite andb_false_r.
  - destruct (Z.ltb_spec 0 ref_count).
    + destruct (calculate_quantity_divide ref_count panel_count)
        as [Hsmall Herr]; [done..|].
      rewrite Z.max_r by lia.
      split; [|done]. intros Hq. rewrite Hsmall by done.
      by rewrite andb_true_r.
    + split; [|done]. by rewrite andb_false_r.
Qed.

Lemma calculate_quantity_unvalidated_witness :
  calculate_quantity 16 None 0 = Raise ZeroDivisionError
  ∧ calculate_quantity 16 None (-8) = Ok 1.
Proof.
  split.
  - apply (calculate_quantity_unvalidated 16 None 0); [lia|reflexivity].
  - apply (calculate_quantity_unvalidated 16 None (-8)); [lia|reflexivity].
Defined.

(** ** Strings *)

Lemma str_app_cons (c : ascii) (s t : string) :
  String c s +:+ t = String c (s +:+ t).
Proof. reflexivity. Qed.

Lemma str_app_nil_l (s : string) : "" +:+ s = s.
Proof. reflexivity. Qed.

Lemma str_app_nil_r (s : string) : s +:+ "" = s.
Proof. induction s as [|c s IH]; [done|]. by rewrite str_app_cons, IH. Qed.

Lemma str_app_assoc (s t u : string) : (s +:+ t) +:+ u = s +:+ t +:+ u.
Proof. induction s as [|c s IH]; [done|]. by rewrite !str_app_cons, IH. Qed.

Lemma str_length_app (s t : string) :
  String.length (s +:+ t) = (String.length s + String.length t)%nat.
Proof.
  induction s as [|c s IH]; [done|]. rewrite str_app_cons. simpl. by rewrite IH.
Qed.

Lemma take_app (s t : string) : Str.take (String.length s) (s +:+ t) = s.
Proof.
  induction s as [|c s IH]; [by destruct t|]. rewrite str_app_cons. simpl.
  by rewrite IH.
Qed.

Lemma take_nil (n : nat) : Str.take n "" = "".
Proof. by destruct n. Qed.

Lemma drop_app (s t : string) : drop (String.length s) (s +:+ t) = t.
Proof.
  induction s as [|c s IH]; [by destruct t|]. by rewrite str_app_cons.
Qed.

Lemma fold_left_invariant {A B : Type} (P : A → Prop) (f : A → B → A)
    (l : list B) (a : A) :
  P a → (∀ a x, x ∈ l → P a → P (f a x)) → P (fold_left f l a).
Proof.
  revert a. induction l as [|x l IH]; intros a Ha Hf; [done|]. simpl.
  apply IH.
  - apply Hf; [left|done].
  - intros a' y Hy. apply Hf. by right.
Qed.

(** ** The matcher finds only what the pattern denotes *)

Lemma re_match_sound {A : Type} (ic : bool) (r : regex) :
  ∀ (i : nat) (s : string) (k : nat → string → option A) (a : A),
    re_match ic r i s k = Some a →
    ∃ w t, s = w +:+ t ∧ matches ic r i w
           ∧ k (i + String.length w)%nat t = Some a.
Proof.
  induction r as [|cs| |r1 IH1 r2 IH2|r1 IH1 r2 IH2|r1 IH1];
    intros i s k a H; simpl in H.
  - exists "", s. rewrite Nat.add_0_r. repeat split; [constructor|done].
  - destruct s as [|c s']; [done|].
    destruct (charset_mem ic cs c) eqn:Hc; [|done].
    exists (String c ""), s'. rewrite str_app_cons, str_app_nil_l.
    simpl. rewrite Nat.add_1_r.
    repeat split; [by constructor|done].
  - destruct (Nat.eqb_spec i 0) as [->|]; [|done].
    exists "", s. repeat split; [constructor|done].
  - apply IH1 in H as (w1 & t1 & -> & Hw1 & H).
    apply IH2 in H as (w2 & t2 & -> & Hw2 & H).
    exists (w1 +:+ w2), t2.
    rewrite str_app_assoc, str_length_app, Nat.add_assoc.
    repeat split; [by constructor|done].
  - destruct (re_match ic r1 i s k) as [a'|] eqn:H1.
    + injection H as ->. apply IH1 in H1 as (w & t & -> & Hw & H).
      exists w, t. repeat split; [by apply matches_alt_l|done].
    + apply IH2 in H as (w & t & -> & Hw & H).
      exists w, t. repeat split; [by apply matches_alt_r|done].
  - revert H. generalize (String.length s) as fuel. intros fuel. revert i s.
    induction fuel as [|fuel IHf]; intros i s H.
    + exists "", s. rewrite Nat.add_0_r. repeat split; [constructor|done].
    + match type of H with
      | match ?m with _ => _ end = _ => destruct m as [a'|] eqn:H1
      end.
      * injection H as ->. apply IH1 in H1 as (w1 & t1 & -> & Hw1 & H).
        destruct (Nat.eqb_spec (i + String.length w1) i); [done|].
        apply IHf in H as (w2 & t2 & -> & Hw2 & H).
        exists (w1 +:+ w2), t2.
        rewrite str_app_assoc, str_length_app, Nat.add_assoc.
        repeat split; [by apply matches_star_cons|done].
      * exists "", s. rewrite Nat.add_0_r. repeat split; [constructor|done].
Qed.

Lemma match_at_sound (ic : bool) (r : regex) (adv : bool) (i j : nat) (s : string) :
  match_at ic r adv i s = Some j →
  ∃ w t, s = w +:+ t ∧ matches ic r i w ∧ j = (i + String.length w)%nat.
Proof.
  unfold match_at. intros H. apply re_match_sound in H as (w & t & -> & Hw & H).
  exists w, t. repeat split; [done|].
  destruct (adv && _); [done|]. by injection H.
Qed.

Lemma scattered_app_l (P : string → Prop) (ms : list string) (p s : string) :
  scattered P ms s → scattered P ms (p +:+ s).
Proof.
  intros H. destruct H as [s|pre m ms s Hm H]; [constructor|].
  rewrite <- str_app_assoc. by constructor.
Qed.

Lemma scattered_app_r (P : string → Prop) (ms : list string) (s q : string) :
  scattered P ms s → scattered P ms (s +:+ q).
Proof.
  induction 1 as [s|pre m ms s Hm H IH]; [constructor|].
  rewrite !str_app_assoc. by constructor.
Qed.

Lemma scattered_elem (P : string → Prop) (ms : list string) (s m : string) :
  scattered P ms s → m ∈ ms → P m ∧ substring_of m s.
Proof.
  induction 1 as [s|pre m' ms s Hm H IH]; intros Hin.
  - by apply elem_of_nil in Hin.
  - apply elem_of_cons in Hin as [->|Hin].
    + split; [done|]. by exists pre, s.
    + destruct (IH Hin) as (HP & pre' & post & ->). split; [done|].
      exists (pre +:+ m' +:+ pre'), post. by rewrite !str_app_assoc.
Qed.

Lemma scattered_Forall (P : string → Prop) (ms : list string) (s : string) :
  scattered P ms s → Forall P ms.
Proof. induction 1; by constructor. Qed.

Section Findall.

Variables (ic : bool) (r : regex).

Lemma scattered_empty (ms : list string) (s : string) :
  denoted ic r "" → scattered (denoted ic r) ms s → scattered (denoted ic r) ("" :: ms) s.
Proof. intros He H. by apply (scattered_cons (denoted ic r) "" "" ms s). Qed.

Lemma match_at_take (adv : bool) (i j : nat) (s : string) :
  match_at ic r adv i s = Some j →
  ∃ w t, s = w +:+ t ∧ denoted ic r w ∧ (j - i)%nat = String.length w.
Proof.
  intros H. apply match_at_sound in H as (w & t & -> & Hw & ->).
  exists w, t. repeat split; [by exists i|lia].
Qed.

Lemma findall_from_scattered (s : string) :
  ∀ i skip, scattered (denoted ic r) (findall_from ic r i s skip) (drop skip s).
Proof.
  induction s as [|c s IH]; intros i skip.
  - destruct skip as [|skip]; simpl; [|constructor].
    destruct (match_at ic r false i "") as [j|] eqn:H1; [|constructor].
    apply match_at_take in H1 as (w & t & Hs & Hw & Hlen).
    destruct w; [|done]. destruct t; [|done]. clear Hs.
    rewrite !take_nil.
    destruct (j =? i)%nat.
    + apply scattered_empty; [done|].
      destruct (match_at ic r true i "") as [j'|]; [|constructor].
      rewrite take_nil. apply scattered_empty; [done|constructor].
    + apply scattered_empty; [done|constructor].
  - destruct skip as [|skip]; [|apply IH].
    assert (Hnext : ∀ w t, String c s = w +:+ t → denoted ic r w →
      scattered (denoted ic r)
        (Str.take (String.length w) (String c s)
           :: findall_from ic r (S i) s (String.length w - 1))
        (String c s)).
    { intros w t Hs Hw. rewrite Hs at 1. rewrite take_app.
      destruct w as [|c' w].
      - apply scattered_empty; [done|].
        apply (scattered_app_l (denoted ic r) _ (String c "")), (IH (S i) 0%nat).
      - rewrite Hs. apply (scattered_cons (denoted ic r) "" (String c' w) _ t); [done|].
        rewrite str_app_cons in Hs. injection Hs as _ ->.
        simpl. rewrite Nat.sub_0_r.
        pose proof (IH (S i) (String.length w)) as H.
        by rewrite drop_app in H. }
    assert (Hskip : scattered (denoted ic r) (findall_from ic r (S i) s 0) (String c s)).
    { apply (scattered_app_l (denoted ic r) _ (String c "")), (IH (S i) 0%nat). }
    simpl.
    destruct (match_at ic r false i (String c s)) as [j|] eqn:H1; [|done].
    apply match_at_take in H1 as (w & t & Hs & Hw & Hlen).
    destruct (Nat.eqb_spec j i) as [->|Hne].
    + assert (w = "") as -> by (destruct w; [done|simpl in Hlen; lia]).
      apply scattered_empty; [done|].
      destruct (match_at ic r true i (String c s)) as [j'|] eqn:H2; [|done].
      apply match_at_take in H2 as (w' & t' & Hs' & Hw' & Hlen').
      rewrite Hlen'. by eapply Hnext.
    + rewrite Hlen. by eapply Hnext.
Qed.

(** The matches [findall] returns lie in the subject in the order returned,
    and each is a text the pattern denotes. *)
Lemma findall_scattered (s : string) :
  scattered (denoted ic r) (findall ic r s) s.
Proof. apply (findall_from_scattered s 0 0). Qed.

End Findall.

(** ** Reference designators *)

Lemma ref_letter_char (c : ascii) :
  charset_mem true (COneOf "RCLUDQJXYFT") c = true →
  mem_string (Str.upper_char c) "RCLUDQJXYFT" = true.
Proof. each_char c; vm_compute; done. Qed.

Lemma digit_char (ic : bool) (c : ascii) :
  charset_mem ic CDigit c = true → Str.is_digit c = true.
Proof. destruct ic; each_char c; vm_compute; done. Qed.

Lemma matches_chr_inv (ic : bool) (cs : charset) (i : nat) (w : string) :
  matches ic (Chr cs) i w → ∃ c, w = String c "" ∧ charset_mem ic cs c = true.
Proof. inversion 1; subst. by eexists. Qed.

Lemma matches_seq_inv (ic : bool) (r1 r2 : regex) (i : nat) (w : string) :
  matches ic (Seq r1 r2) i w →
  ∃ w1 w2, w = w1 +:+ w2 ∧ matches ic r1 i w1
           ∧ matches ic r2 (i + String.length w1)%nat w2.
Proof. inversion 1; subst. by eexists _, _. Qed.

Lemma all_digits_app (s t : string) :
  all_digits s = true → all_digits t = true → all_digits (s +:+ t) = true.
Proof.
  induction s as [|c s IH]; [done|]. rewrite str_app_cons. simpl.
  rewrite !andb_true_iff. intros [Hc Hs] Ht. auto.
Qed.

Lemma matches_digits (ic : bool) (i : nat) (w : string) :
  matches ic (Star digit) i w → all_digits w = true.
Proof.
  remember (Star digit) as r eqn:Hr.
  induction 1 as [| | | | | | |r' i w1 w2 H1 _ H2 IH2];
    try discriminate Hr; [done|].
  injection Hr as ->. apply all_digits_app; [|by apply IH2].
  apply matches_chr_inv in H1 as (c & -> & Hc). simpl.
  by rewrite (digit_char _ _ Hc).
Qed.

(** A text the one-designator pattern denotes is a designator. *)
Lemma matches_ref_token (i : nat) (w : string) :
  matches true ref_token i w → designator w = true.
Proof.
  intros H. unfold ref_token, Plus in H.
  apply matches_seq_inv in H as (w1 & w2 & -> & H1 & H2).
  apply matches_chr_inv in H1 as (c & -> & Hc).
  apply matches_seq_inv in H2 as (d & ds & -> & Hd & Hds).
  apply matches_chr_inv in Hd as (c' & -> & Hc').
  apply matches_digits in Hds. apply digit_char in Hc'.
  rewrite !str_app_cons, !str_app_nil_l. unfold designator.
  rewrite (ref_letter_char _ Hc). cbn [Str.nonempty all_digits andb].
  by rewrite Hc', Hds.
Qed.

(** No comma in a designator, so joining and splitting round-trip. *)
Lemma designator_no_comma (t : string) :
  designator t = true → mem_string "," t = false.
Proof.
  destruct t as [|c ds]; [done|]. simpl. rewrite !andb_true_iff.
  intros [[Hc _] Hds].
  assert (Hds' : mem_string "," ds = false).
  { clear Hc. induction ds as [|d ds IH]; [done|]. simpl in *.
    apply andb_true_iff in Hds as [Hd Hds]. rewrite (IH Hds), orb_false_r.
    revert Hd. each_char d; vm_compute; done. }
  rewrite Hds', orb_false_r. revert Hc. each_char c; vm_compute; done.
Qed.

Lemma split_nonempty (sep : ascii) (s : string) : Str.split sep s ≠ [].
Proof.
  destruct s as [|c s]; [done|]. simpl.
  destruct (Ascii.eqb c sep); [done|]. by destruct (Str.split sep s).
Qed.

Lemma split_app (t s : string) :
  mem_string "," t = false →
  Str.split "," (t +:+ s)
    = (t +:+ hd "" (Str.split "," s)) :: tl (Str.split "," s).
Proof.
  induction t as [|c t IH]; intros Ht.
  - rewrite !str_app_nil_l. pose proof (split_nonempty "," s).
    by destruct (Str.split "," s).
  - cbn [mem_string] in Ht. apply orb_false_iff in Ht as [Hc Ht].
    rewrite !str_app_cons. cbn [Str.split].
    rewrite Ascii.eqb_sym, Hc, (IH Ht). done.
Qed.

Lemma split_join (tokens : list string) :
  tokens ≠ [] → Forall (λ t, designator t = true) tokens →
  Str.split "," (Str.join "," tokens) = tokens.
Proof.
  intros Hne Hall. induction Hall as [|t ts Ht Hts IH]; [done|]. clear Hne.
  apply designator_no_comma in Ht. unfold Str.join in *. simpl.
  destruct ts as [|t' ts].
  - rewrite <- (str_app_nil_r t) at 1. rewrite split_app by done.
    cbn [Str.split hd tl]. by rewrite str_app_nil_r.
  - rewrite split_app by done.
    change (Str.split "," ("," +:+ String.concat "," (t' :: ts)))
      with ("" :: Str.split "," (String.concat "," (t' :: ts))).
    simpl hd. simpl tl. rewrite str_app_nil_r. f_equal. by apply IH.
Qed.

Lemma best_ref_match_from_row (row : Row) : from_row row (best_ref_match row, 0).
Proof.
  unfold best_ref_match.
  assert (H : from_row row (fold_left ref_scan_cell row ("", 0))).
  { apply fold_left_invariant; [by left|].
    intros b cell Hcell Hb. unfold ref_scan_cell.
    apply fold_left_invariant; [done|].
    intros b' pattern _ Hb'. unfold ref_scan_pattern.
    pose proof (findall_scattered true pattern (Str.strip cell)) as Hsc.
    apply fold_left_invariant; [done|].
    intros b'' m Hm Hb''. unfold ref_consider.
    destruct (_ <? _); [|done].
    right. exists cell. split; [done|].
    by destruct (scattered_elem _ _ _ _ Hsc Hm) as [_ ?]. }
  exact H.
Qed.

Lemma format_refs_tokens (best_match : string) :
  format_refs best_match = ""
  ∨ scattered (λ t, designator t = true) (designators (format_refs best_match))
      best_match.
Proof.
  unfold format_refs. destruct (Str.nonempty best_match) eqn:Hne;
    [|left; by destruct best_match].
  pose proof (findall_scattered true ref_token best_match) as Hsc.
  assert (Hd : scattered (λ t, designator t = true)
                 (findall true ref_token best_match) best_match).
  { clear Hne. induction Hsc as [|pre m ms s [i Hm] _ IH]; constructor; [|done].
    by eapply matches_ref_token. }
  destruct (findall true ref_token best_match) as [|t ts] eqn:Hts; [by left|].
  right. unfold designators.
  by rewrite split_join; [|done|by eapply scattered_Forall].
Qed.

Lemma designator_nonblank (t : string) : designator t = true → nonblank t = true.
Proof.
  destruct t as [|c ds]; [done|]. unfold designator, nonblank, Str.strip.
  rewrite !andb_true_iff. intros [[Hc _] _].
  assert (Hsp : Str.is_space c = false).
  { revert Hc. each_char c; vm_compute; done. }
  cbn [Str.lstrip]. rewrite Hsp. cbn [Str.rstrip].
  destruct (Str.rstrip ds); [by rewrite Hsp|done].
Qed.

Lemma designator_nonempty (t : string) : designator t = true → t ≠ "".
Proof. by destruct t. Qed.

Lemma join_nonempty (t : string) (ts : list string) :
  t ≠ "" → Str.join "," (t :: ts) ≠ "".
Proof. unfold Str.join. simpl. destruct ts; [done|]. by destruct t. Qed.

Lemma format_refs_count (best_match : string) :
  count_references (format_refs best_match)
    = (if Str.nonempty (format_refs best_match)
       then Z.of_nat (length (designators (format_refs best_match))) else 0)
  ∧ (format_refs best_match ≠ "" → 1 ≤ count_references (format_refs best_match))
  ∧ (format_refs best_match = "" → count_references (format_refs best_match) = 0).
Proof.
  set (s := format_refs best_match).
  assert (Hcount : count_references s
            = if Str.nonempty s then Z.of_nat (length (designators s)) else 0).
  { unfold count_references. destruct (Str.nonempty s) eqn:Hne; [|done].
    destruct (format_refs_tokens best_match) as [Hs|Hsc];
      [fold s in Hs; by rewrite Hs in Hne|].
    apply scattered_Forall in Hsc. fold s in Hsc. unfold designators in *.
    f_equal. f_equal. induction Hsc as [|t ts Ht _ IH]; [done|].
    rewrite filter_cons. fold (nonblank t). rewrite (designator_nonblank t Ht).
    destruct (decide (true = true)); [|done]. simpl. by rewrite IH. }
  split; [done|]. split.
  - intros Hne. rewrite Hcount.
    destruct s as [|c s'] eqn:Hs; [done|]. simpl.
    pose proof (split_nonempty "," (String c s')) as Hsplit.
    unfold designators. destruct (Str.split "," (String c s')); [done|]. simpl. lia.
  - by intros ->.
Qed.

(** [df.iloc] finds a row at every position and raises [IndexError]
    elsewhere. *)
Lemma iloc_position (df : DataFrame) (i : Z) :
  position_of df i = true → ∃ row, iloc df i = Ok row.
Proof.
  unfold position_of, iloc. intros Hi. apply andb_true_iff in Hi as [Hlo Hhi].
  apply Z.leb_le in Hlo. apply Z.ltb_lt in Hhi.
  set (position := if i <? 0 then Z.of_nat (length df) + i else i).
  assert (Hpos : 0 ≤ position < Z.of_nat (length df)).
  { unfold position. destruct (Z.ltb_spec i 0); lia. }
  destruct (Z.leb_spec 0 position); [|lia].
  destruct (Z.ltb_spec position (Z.of_nat (length df))); [|lia]. simpl.
  destruct (df !! Z.to_nat position) as [[idx row]|] eqn:Hrow; [by exists row|].
  apply lookup_ge_None in Hrow. lia.
Qed.

Lemma iloc_outside (df : DataFrame) (i : Z) :
  position_of df i = false → iloc df i = Raise IndexError.
Proof.
  unfold position_of, iloc. intros Hi. apply andb_false_iff in Hi.
  rewrite Z.leb_gt, Z.ltb_ge in Hi.
  destruct (Z.ltb_spec i 0);
    destruct (Z.leb_spec 0 (Z.of_nat (length df) + i));
    destruct (Z.leb_spec 0 i);
    destruct (Z.ltb_spec (Z.of_nat (length df) + i) (Z.of_nat (length df)));
    destruct (Z.ltb_spec i (Z.of_nat (length df))); simpl; try done; lia.
Qed.

(** The row [df.iloc] finds is a row of the frame, at a position. *)
Lemma iloc_row (df : DataFrame) (i : Z) (row : Row) :
  iloc df i = Ok row → position_of df i = true ∧ ∃ idx, (idx, row) ∈ df.
Proof.
  intros H. split.
  - destruct (position_of df i) eqn:Hn; [done|].
    rewrite (iloc_outside df i Hn) in H. discriminate H.
  - unfold iloc in H. destruct (_ && _); [|done].
    destruct (df !! Z.to_nat _) as [[idx row']|] eqn:Hrow; [|done].
    injection H as ->. exists idx. by eapply list_elem_of_lookup_2.
Qed.

Lemma extract_iloc (df : DataFrame) (i : Z) (row : Row) :
  iloc df i = Ok row →
  extract_reference_designators df i = Ok (format_refs (best_ref_match row)).
Proof. intros H. unfold extract_reference_designators. by rewrite H. Qed.

Lemma extract_inv (df : DataFrame) (i : Z) (refs : string) :
  extract_reference_designators df i = Ok refs →
  ∃ row, iloc df i = Ok row ∧ refs = format_refs (best_ref_match row).
Proof.
  unfold extract_reference_designators. destruct (iloc df i) as [row|e]; [|done].
  intros [= <-]. by exists row.
Qed.

(** C4, as stated, fails: a designator written twice comes out twice. *)
Lemma extract_reference_designators_keeps_duplicates :
  extract_reference_designators [(0, ["R1,R1"])] 0 = Ok "R1,R1"
  ∧ ¬ NoDup (designators "R1,R1").
Proof.
  split; [reflexivity|]. intros H.
  apply NoDup_cons in H as [H _]. apply H. left.
Qed.

(** C4, amended. For every row of ASCII text the extractor returns either
    the empty string or a comma-separated list of designators, none of them
    empty, each a letter code followed by digits, which lie in this order,
    one after the other, in one cell of the row.  Designators are not
    de-duplicated: a repeated one is listed each time it appears. *)
Theorem extract_reference_designators_canonical (df : DataFrame) (part_idx : Z)
    (row : Row) :
  iloc df part_idx = Ok row → ascii_row row = true →
  ∃ s, extract_reference_designators df part_idx = Ok s
    ∧ (s = ""
       ∨ Forall (λ t, designator t = true) (designators s)
         ∧ ∃ cell, cell ∈ row
             ∧ scattered (λ t, designator t = true) (designators s)
                 (Str.strip cell)).
Proof.
  intros Hrow _. rewrite (extract_iloc df part_idx row Hrow).
  eexists; split; [done|].
  destruct (format_refs_tokens (best_ref_match row)) as [Hs|Hsc]; [by left|].
  destruct (best_ref_match_from_row row)
    as [Hb|(cell & Hcell & pre & post & Hsub)]; simpl in *.
  - left. by rewrite Hb.
  - right. split; [by eapply scattered_Forall|].
    exists cell. split; [done|]. rewrite Hsub.
    by apply scattered_app_l, scattered_app_r.
Qed.

Lemma extract_reference_designators_canonical_witness :
  ∃ s, extract_reference_designators [(0, ["RK73B2ATTD1002F"; "R1,R5"; "KOA"])] 0 = Ok s
    ∧ (s = ""
       ∨ Forall (λ t, designator t = true) (designators s)
         ∧ ∃ cell, cell ∈ ["RK73B2ATTD1002F"; "R1,R5"; "KOA"]
             ∧ scattered (λ t, designator t = true) (designators s)
                 (Str.strip cell)).
Proof.
  apply (extract_reference_designators_canonical
           [(0, ["RK73B2ATTD1002F"; "R1,R5"; "KOA"])] 0
           ["RK73B2ATTD1002F"; "R1,R5"; "KOA"]); reflexivity.
Defined.

(** C7. The same three designators written with semicolons, with commas
    or with dashes come out as the one canonical string, in the order
    first seen. *)
Theorem extract_reference_designators_separators :
  extract_reference_designators [(0, ["R1;R5; C10"])] 0 = Ok "R1,R5,C10"
  ∧ extract_reference_designators [(0, ["R1,R5,C10"])] 0 = Ok "R1,R5,C10"
  ∧ extract_reference_designators [(0, ["R1-R5-C10"])] 0 = Ok "R1,R5,C10".
Proof. repeat split; vm_compute; reflexivity. Qed.

(** ** Part numbers and manufacturers *)

(** C5 on the code. The cell abc1234d is matched whole by the first
    pattern, case-insensitively; it has a letter run, four digits and a
    closing letter, yet it scores 20 + 8 = 28 with no bonus of 10, because
    the bonus pattern is searched case-sensitively.  The same text in upper
    case scores 38. *)
Theorem match_confidence_lowercase_no_bonus :
  (∃ pattern, patterns !! 0%nat = Some (pattern, 20)
     ∧ findall true pattern "abc1234d" = ["abc1234d"])
  ∧ match_confidence 20 "abc1234d" = 28
  ∧ match_confidence 20 "ABC1234D" = 38.
Proof.
  split; [eexists; split; [reflexivity|vm_compute; reflexivity]|].
  split; vm_compute; reflexivity.
Qed.

(** C2 on the code. With KOA in the first cell and Murata in the second
    the detector answers Murata: the [break] leaves the loop over the
    names only, the loop over the cells goes on and a later hit replaces
    the earlier one. *)
Theorem detect_manufacturers_later_cell_wins :
  first_manufacturer "KOA" = Some "KOA"
  ∧ detect_manufacturers [(0, ["KOA"; "Murata"])] !! 0 = Some "Murata".
Proof. split; vm_compute; reflexivity. Qed.

(** ** Classification and defaults *)

Lemma blank_text (v : value) : is_text v = true → blank v = Ok (empty_field v).
Proof. by destruct v. Qed.

Lemma default_keys_text (k : string) : k ∈ default_keys → k ∈ text_keys.
Proof.
  intros Hk. apply list_elem_of_In in Hk. apply list_elem_of_In.
  simpl in *. tauto.
Qed.

Lemma text_fields_get (row : gmap string value) (k : string) :
  text_fields row → k ∈ text_keys → ∃ s, get row k = VStr s.
Proof.
  unfold text_fields. rewrite forallb_forall. intros H Hk.
  apply list_elem_of_In in Hk. specialize (H k Hk).
  destruct (get row k) as [s|z]; [by exists s|done].
Qed.

(** The loop over the defaults: every default key whose field is empty
    gets its default, nothing else changes. *)
Lemma apply_default_list (l : list (string * string)) (row : gmap string value) :
  NoDup l.*1 →
  (∀ k d, (k, d) ∈ l → is_text (get row k) = true) →
  ∃ row', foldl apply_default (Ok row) l = Ok row'
    ∧ ∀ k, row' !! k = filled_in (list_to_map l) row k.
Proof.
  revert row. induction l as [|[k1 d1] l IH]; intros row Hnd Htext.
  - exists row. split; [done|]. intros k. unfold filled_in. simpl.
    by rewrite lookup_empty.
  - apply NoDup_cons in Hnd as [Hk1 Hnd]. simpl.
    rewrite (blank_text (get row k1)) by (eapply Htext; left). simpl.
    set (row1 := if empty_field (get row k1) then <[k1 := VStr d1]> row else row).
    assert (Hget : ∀ k, k ≠ k1 → row1 !! k = row !! k).
    { intros k Hne. unfold row1. destruct (empty_field _); [|done].
      by rewrite lookup_insert_ne. }
    destruct (IH row1 Hnd) as (row' & Hfold & Hrow').
    { intros k d Hin. unfold get. rewrite Hget.
      - eapply Htext. right. done.
      - intros ->. apply Hk1. apply list_elem_of_fmap. by exists (k1, d). }
    exists row'. split; [done|]. intros k. rewrite Hrow'. unfold filled_in.
    destruct (decide (k = k1)) as [->|Hne].
    + rewrite (not_elem_of_list_to_map_1 _ k1) by done.
      simpl. rewrite lookup_insert_eq. unfold row1.
      destruct (empty_field (get row k1)); [|done]. by rewrite lookup_insert_eq.
    + simpl. rewrite lookup_insert_ne by done.
      unfold get. by rewrite !Hget.
Qed.

Lemma component_patterns_defaults :
  Forall (λ entry, defaults_for (default "" (categories !! entry.1))
                     (update base_defaults (info_defaults entry.2)))
         component_patterns.
Proof. repeat constructor; reflexivity. Qed.

Lemma manufacturer_defaults_defaults :
  map_Forall (λ _ d, defaults_for "" (update base_defaults d)) manufacturer_defaults.
Proof.
  rewrite map_Forall_to_list.
  set (l := map_to_list manufacturer_defaults). vm_compute in l. subst l.
  repeat constructor; reflexivity.
Qed.

Lemma base_defaults_defaults : defaults_for "" base_defaults.
Proof. split; reflexivity. Qed.

Lemma first_match_defaults (text : string) (component_type : string)
    (info : component_info) :
  first_match text = Some (component_type, info) →
  defaults_for (default "" (categories !! component_type))
    (update base_defaults (info_defaults info)).
Proof.
  intros H. apply find_some in H as [Hin _]. apply list_elem_of_In in Hin.
  pose proof component_patterns_defaults as HF.
  rewrite Forall_forall in HF. exact (HF _ Hin).
Qed.

(** The last resort of [classify_component]: the manufacturer table. *)
Lemma manufacturer_fallback (manufacturer : value) :
  ∃ d, match manufacturer with
       | VStr m =>
           match manufacturer_defaults !! m with
           | Some d => Ok (update base_defaults d)
           | None => Ok base_defaults
           end
       | VInt _ => Ok base_defaults
       end = Ok d
    ∧ defaults_for "" d.
Proof.
  destruct manufacturer as [m|z];
    [|eexists; split; [done|apply base_defaults_defaults]].
  destruct (manufacturer_defaults !! m) as [d|] eqn:Hm;
    [|eexists; split; [done|apply base_defaults_defaults]].
  eexists; split; [done|]. by apply (manufacturer_defaults_defaults m d).
Qed.

(** On text, [classify_component] returns defaults over the three default
    keys whose package is DIP exactly when the category found is the
    connector one. *)
Lemma classify_component_text (part_number ref_designator : string)
    (manufacturer : value) :
  ∃ d, classify_component (VStr part_number) manufacturer (VStr ref_designator) = Ok d
    ∧ defaults_for (get_component_category part_number ref_designator) d.
Proof.
  unfold classify_component, get_component_category, match_field.
  cbn [truthy mbind result_bind].
  destruct (Str.nonempty ref_designator); cbn [mbind result_bind].
  - destruct (first_match ref_designator) as [[ty info]|] eqn:Href.
    { eexists; split; [done|]. by eapply first_match_defaults. }
    destruct (Str.nonempty part_number); cbn [mbind result_bind].
    + destruct (first_match part_number) as [[ty info]|] eqn:Hpart.
      { eexists; split; [done|]. by eapply first_match_defaults. }
      apply manufacturer_fallback.
    + apply manufacturer_fallback.
  - destruct (Str.nonempty part_number); cbn [mbind result_bind].
    + destruct (first_match part_number) as [[ty info]|] eqn:Hpart.
      { eexists; split; [done|]. by eapply first_match_defaults. }
      apply manufacturer_fallback.
    + apply manufacturer_fallback.
Qed.

Lemma package_of_filled (category : string) :
  empty_field (VStr (package_of category)) = false.
Proof. unfold package_of. by destruct (String.eqb _ _). Qed.

(** What [enhance_component_data] does to a row whose fields are text,
    whatever the package detector. *)
Lemma enhance_with_spec (detect : value → value → result string)
    (row : gmap string value) :
  text_fields row →
  ∃ part ref d row',
    get row "電子部品型番" = VStr part ∧ get row "配置記号" = VStr ref
    ∧ classify_component (VStr part) (get row "メーカー") (VStr ref) = Ok d
    ∧ defaults_for (get_component_category part ref) d
    ∧ enhance_with detect row = Ok row'
    ∧ ∀ k, row' !! k = filled_in d row k.
Proof.
  intros Htext.
  destruct (text_fields_get row "電子部品型番" Htext) as [part Hpart]; [in_list|].
  destruct (text_fields_get row "配置記号" Htext) as [ref Href]; [in_list|].
  destruct (classify_component_text part ref (get row "メーカー"))
    as (d & Hd & Hdom & Hpkg).
  destruct (apply_default_list (map_to_list d) row) as (row' & Hfold & Hrow').
  { apply NoDup_fst_map_to_list. }
  { intros k x Hin. apply elem_of_map_to_list in Hin.
    assert (Hk : k ∈ dom d) by (apply elem_of_dom; eauto).
    rewrite Hdom, elem_of_list_to_set in Hk.
    destruct (text_fields_get row k Htext) as [s ->]; [|done].
    by apply default_keys_text. }
  rewrite list_to_map_to_list in Hrow'.
  exists part, ref, d, row'. repeat split; try done.
  unfold enhance_with. rewrite Hpart, Href, Hd. simpl. rewrite Hfold. simpl.
  assert (Hb : blank (get row' "部品型番") = Ok false).
  { unfold get at 1. rewrite Hrow'. unfold filled_in. rewrite Hpkg.
    destruct (empty_field (get row "部品型番")) eqn:He; simpl.
    - pose proof (package_of_filled (get_component_category part ref)) as Hf.
      simpl in Hf. by rewrite Hf.
    - destruct (text_fields_get row "部品型番" Htext) as [s Hs]; [in_list|].
      fold (get row "部品型番"). rewrite Hs in He |- *. simpl in *. by rewrite He. }
  by rewrite Hb.
Qed.

(** Fields that are not empty come out of [enhance_with] as they went in;
    a field that changes was empty. *)
Lemma enhance_with_frame (detect : value → value → result string)
    (row : gmap string value) :
  text_fields row →
  ∃ row', enhance_with detect row = Ok row'
    ∧ (∀ k v, row !! k = Some v → empty_field v = false → row' !! k = Some v)
    ∧ (∀ k, row' !! k ≠ row !! k → empty_field (get row k) = true).
Proof.
  intros Htext.
  destruct (enhance_with_spec detect row Htext)
    as (part & ref & d & row' & _ & _ & _ & _ & Hrow' & Hk).
  exists row'. split; [done|]. split.
  - intros k v Hv He. rewrite Hk. unfold filled_in, get. rewrite Hv. simpl.
    rewrite He. by destruct (d !! k).
  - intros k Hne. rewrite Hk in Hne. unfold filled_in in Hne.
    destruct (d !! k); [|done]. by destruct (empty_field (get row k)).
Qed.

(** C8. Applying the defaults fills empty fields only: every field that
    holds a value that is not empty (nor white space only) is left as it
    is by [enhance_component_data], whatever the part number; any field
    that changes was empty; a display name already set to X stays X.
    Stated for records whose fields 品名, 部品型番 and 実装/検査 hold no
    white space other than ASCII's, so that "empty" is what [strip] makes
    empty. *)
Theorem enhance_component_data_keeps_filled (row_data : gmap string value) :
  text_fields row_data →
  forallb (λ key, ascii_spaced_value (get row_data key)) default_keys = true →
  ∃ row', enhance_component_data row_data = Ok row'
    ∧ (∀ key v, row_data !! key = Some v → empty_field v = false →
         row' !! key = Some v)
    ∧ (∀ key, row' !! key ≠ row_data !! key →
         empty_field (get row_data key) = true)
    ∧ (row_data !! "品名" = Some (VStr "X") → row' !! "品名" = Some (VStr "X")).
Proof.
  intros Htext _.
  destruct (enhance_with_frame detect_package_type row_data Htext)
    as (row' & Hrow' & Hkeep & Hfill).
  exists row'. repeat split; try done.
  intros HX. by apply Hkeep.
Qed.

Lemma enhance_component_data_keeps_filled_witness :
  ∃ row', enhance_component_data
            (list_to_map [("品名", VStr "X"); ("電子部品型番", VStr "RK73B2ATTD1002F")])
          = Ok row'
    ∧ row' !! "品名" = Some (VStr "X").
Proof.
  destruct (enhance_component_data_keeps_filled
              (list_to_map [("品名", VStr "X"); ("電子部品型番", VStr "RK73B2ATTD1002F")]))
    as (row' & Hrow' & _ & _ & HX); [reflexivity|reflexivity|].
  exists row'. split; [exact Hrow'|]. apply HX. reflexivity.
Defined.

(** C10. A record whose package field is empty or white space only gets
    the package of the classification defaults: DIP when the component is
    classified a connector, SMD otherwise.  The defaults fill the field
    first, so the later check never calls [detect_package_type]: the result
    is the same whatever that detector would answer, and is never the BGA
    label, even for a part number containing BGA. *)
Theorem enhance_component_data_package_default (row_data : gmap string value) :
  text_fields row_data →
  empty_field (get row_data "部品型番") = true →
  ∃ part_number ref_designator row',
    get row_data "電子部品型番" = VStr part_number
    ∧ get row_data "配置記号" = VStr ref_designator
    ∧ enhance_component_data row_data = Ok row'
    ∧ row' !! "部品型番"
        = Some (VStr (package_of (get_component_category part_number ref_designator)))
    ∧ row' !! "部品型番" ≠ Some (VStr "組込(BGA他)")
    ∧ ∀ detect, enhance_with detect row_data = Ok row'.
Proof.
  intros Htext Hempty.
  destruct (enhance_with_spec detect_package_type row_data Htext)
    as (part & ref & d & row' & Hpart & Href & Hd & [Hdom Hpkg] & Hrow' & Hk).
  exists part, ref, row'.
  assert (Hp : row' !! "部品型番"
                 = Some (VStr (package_of (get_component_category part ref)))).
  { rewrite Hk. unfold filled_in. by rewrite Hpkg, Hempty. }
  repeat split; try done.
  - rewrite Hp. unfold package_of. by destruct (String.eqb _ _).
  - intros detect.
    destruct (enhance_with_spec detect row_data Htext)
      as (part' & ref' & d' & row'' & Hpart' & Href' & Hd' & _ & Hrow'' & Hk').
    rewrite Hrow''. f_equal. apply map_eq. intros k. rewrite Hk, Hk'.
    rewrite Hpart in Hpart'. rewrite Href in Href'.
    injection Hpart' as <-. injection Href' as <-.
    rewrite Hd in Hd'. by injection Hd' as <-.
Qed.

Lemma enhance_component_data_package_default_witness :
  detect_package_type (VStr "XC7A35T-FBGA484") (VStr "") = Ok "組込(BGA他)"
  ∧ ∃ row', enhance_component_data
              (list_to_map [("電子部品型番", VStr "XC7A35T-FBGA484"); ("部品型番", VStr " ")])
            = Ok row'
      ∧ row' !! "部品型番" = Some (VStr "SMD").
Proof.
  split; [reflexivity|].
  destruct (enhance_component_data_package_default
              (list_to_map [("電子部品型番", VStr "XC7A35T-FBGA484"); ("部品型番", VStr " ")]))
    as (part & ref & row' & Hpart & Href & Hrow' & Hpkg & _); [reflexivity..|].
  exists row'. split; [exact Hrow'|].
  injection Hpart as <-. injection Href as <-. exact Hpkg.
Defined.

(** ** The template mapper *)

Lemma lstrip_length (s : string) :
  (String.length (Str.lstrip s) ≤ String.length s)%nat.
Proof.
  induction s as [|c s IH]; [done|]. simpl. destruct (Str.is_space c); simpl; lia.
Qed.

Lemma rstrip_length (s : string) :
  (String.length (Str.rstrip s) ≤ String.length s)%nat.
Proof.
  induction s as [|c s IH]; [done|]. simpl.
  destruct (Str.rstrip s); [destruct (Str.is_space c)|]; simpl in *; lia.
Qed.

Lemma strip_length (s : string) :
  (String.length (Str.strip s) ≤ String.length s)%nat.
Proof.
  unfold Str.strip. pose proof (rstrip_length (Str.lstrip s)).
  pose proof (lstrip_length s). lia.
Qed.

Lemma substring_length (m s : string) :
  substring_of m s → (String.length m ≤ String.length s)%nat.
Proof. intros (pre & post & ->). rewrite !str_length_app. lia. Qed.

(** Texts that lie one after the other in [s], none of them empty, are no
    more than [s] has characters. *)
Lemma scattered_length (P : string → Prop) (ms : list string) (s : string) :
  (∀ m, P m → m ≠ "") → scattered P ms s → (length ms ≤ String.length s)%nat.
Proof.
  intros HP. induction 1 as [s|pre m ms s Hm _ IH]; [simpl; lia|].
  rewrite !str_length_app. simpl.
  specialize (HP m Hm). destruct m; [done|]. simpl. lia.
Qed.

(** A row has no more designators than one of its cells has characters:
    in a sized row the count stays below [sys.maxsize]. *)
Lemma count_references_sized (row : Row) :
  sized_row row = true →
  count_references (format_refs (best_ref_match row)) ≤ sys_maxsize.
Proof.
  intros Hsized.
  destruct (format_refs_count (best_ref_match row)) as (Hcount & _ & Hzero).
  destruct (format_refs_tokens (best_ref_match row)) as [Hs|Hsc];
    [by rewrite (Hzero Hs)|].
  rewrite Hcount. destruct (Str.nonempty _); [|done].
  apply scattered_length in Hsc; [|by intros [|]].
  destruct (best_ref_match_from_row row)
    as [Hb|(cell & Hcell & Hsub)]; simpl in *.
  - rewrite Hb in Hsc. simpl in Hsc.
    destruct (designators _); [done|simpl in Hsc; lia].
  - apply substring_length in Hsub. pose proof (strip_length cell) as Hstrip.
    unfold sized_row in Hsized. rewrite forallb_forall in Hsized.
    apply list_elem_of_In in Hcell. specialize (Hsized cell Hcell).
    apply Z.leb_le in Hsized. unfold len in Hsized. lia.
Qed.

Lemma detect_part_numbers_elem (df : DataFrame) (idx : Z) (part : string) :
  (idx, part) ∈ detect_part_numbers df ↔
  ∃ row, (idx, row) ∈ df ∧ detect_row row = Some part.
Proof.
  induction df as [|[idx' row'] df IH]; simpl.
  - split; [by intros ?%elem_of_nil|]. by intros (row & ?%elem_of_nil & _).
  - assert (Htail : (idx, part) ∈ detect_part_numbers df →
                    ∃ row, (idx, row) ∈ (idx', row') :: df ∧ detect_row row = Some part).
    { intros (row & Hin & Hd)%IH. exists row. split; [by right|done]. }
    destruct (detect_row row') as [p|] eqn:Hrow'.
    + rewrite elem_of_cons. split.
      * intros [[= -> ->]|Hin]; [|by apply Htail]. exists row'. split; [left|done].
      * intros (row & [[= -> ->]|Hin]%elem_of_cons & Hd).
        -- left. congruence.
        -- right. apply IH. by exists row.
    + split; [done|].
      intros (row & [[= -> ->]|Hin]%elem_of_cons & Hd); [congruence|].
      apply IH. by exists row.
Qed.

Lemma template_row_text (idx : Z) (manufacturer part_number ref_designators : string)
    (qty_total qty_1_unit : Z) :
  text_fields (template_row idx manufacturer part_number ref_designators
                 qty_total qty_1_unit).
Proof. reflexivity. Qed.

(** What a turn of the loop has computed when it ends without an
    exception. *)
Lemma template_entry_inv (df : DataFrame) (manufacturers : gmap Z string)
    (panel_count idx row_idx : Z) (part_number : string) (r : gmap string value) :
  template_entry df manufacturers panel_count idx row_idx part_number = Ok r →
  ∃ refs q,
    extract_reference_designators df row_idx = Ok refs
    ∧ calculate_quantity (count_references refs) None panel_count = Ok q
    ∧ enhance_component_data
        (template_row idx (default "" (manufacturers !! row_idx)) part_number refs
           (q * panel_count) q) = Ok r.
Proof.
  unfold template_entry.
  destruct (extract_reference_designators df row_idx) as [refs|e] eqn:Hx; [|done].
  cbv beta iota delta [mbind result_bind].
  destruct (calculate_quantity (count_references refs) None panel_count)
    as [q|e] eqn:Hq; [|done].
  intros H. exists refs, q. repeat split; [exact Hq|exact H].
Qed.

Lemma calculate_quantity_positive (ref_count panel_count q : Z) :
  calculate_quantity ref_count None panel_count = Ok q → 1 ≤ q.
Proof.
  unfold calculate_quantity. destruct (0 <? ref_count); [|intros [= <-]; lia].
  destruct (int_div ref_count panel_count) as [d|e]; [|done].
  simpl. intros [= <-]. lia.
Qed.

Lemma template_entry_quantities (df : DataFrame) (manufacturers : gmap Z string)
    (panel_count idx row_idx : Z) (part_number : string) (r : gmap string value) :
  template_entry df manufacturers panel_count idx row_idx part_number = Ok r →
  quantities_of panel_count r.
Proof.
  intros (refs & q & _ & Hq & Hr)%template_entry_inv.
  apply calculate_quantity_positive in Hq.
  set (row0 := template_row _ _ _ _ _ _) in Hr.
  destruct (enhance_with_frame detect_package_type row0) as (r' & Hr' & Hkeep & _);
    [apply template_row_text|].
  unfold enhance_component_data in Hr. rewrite Hr in Hr'. injection Hr' as <-.
  exists q. repeat split; try done; by apply Hkeep.
Qed.

Lemma template_rows_quantities (df : DataFrame) (manufacturers : gmap Z string)
    (panel_count : Z) (part_numbers : list (Z * string)) :
  ∀ idx records,
    template_rows df manufacturers panel_count idx part_numbers = Ok records →
    Forall (quantities_of panel_count) records.
Proof.
  induction part_numbers as [|[row_idx part] rest IH]; intros idx records; simpl.
  - intros [= <-]. constructor.
  - destruct (template_entry df manufacturers panel_count idx row_idx part)
      as [r|e] eqn:Hr; [|done].
    cbv beta iota delta [mbind result_bind].
    destruct (template_rows df manufacturers panel_count (idx + 1) rest)
      as [rs|e] eqn:Hrs; [|done].
    intros [= <-]. constructor; [by eapply template_entry_quantities|by eapply IH].
Qed.

(** A turn of the loop ends without an exception when the label is a
    position of a sized frame and the panel count is not 0. *)
Lemma template_entry_ok (df : DataFrame) (manufacturers : gmap Z string)
    (panel_count idx row_idx : Z) (part_number : string) :
  panel_count ≠ 0 → sized df = true → position_of df row_idx = true →
  ∃ r, template_entry df manufacturers panel_count idx row_idx part_number = Ok r.
Proof.
  intros Hp Hsized Hpos.
  destruct (iloc_position df row_idx Hpos) as [row Hrow].
  destruct (iloc_row df row_idx row Hrow) as [_ [idx' Hin]].
  assert (Hrow_sized : sized_row row = true).
  { unfold sized in Hsized. rewrite forallb_forall in Hsized.
    apply list_elem_of_In in Hin. exact (Hsized _ Hin). }
  pose proof (count_references_sized row Hrow_sized) as Hcount.
  unfold template_entry. rewrite (extract_iloc df row_idx row Hrow).
  cbv beta iota delta [mbind result_bind].
  destruct (calculate_quantity_ok (count_references (format_refs (best_ref_match row)))
              panel_count) as (q & -> & _); [|done|].
  { assert (2 ^ 63 < 2 ^ 1023) by (apply Z.pow_lt_mono_r; lia).
    unfold sys_maxsize in Hcount. lia. }
  set (row0 := template_row _ _ _ _ _ _).
  destruct (enhance_with_frame detect_package_type row0) as (r & Hr & _);
    [apply template_row_text|].
  by exists r.
Qed.

Lemma template_rows_ok (df : DataFrame) (manufacturers : gmap Z string)
    (panel_count : Z) (part_numbers : list (Z * string)) :
  panel_count ≠ 0 → sized df = true →
  Forall (λ p, position_of df p.1 = true) part_numbers →
  ∀ idx, ∃ records,
    template_rows df manufacturers panel_count idx part_numbers = Ok records.
Proof.
  intros Hp Hsized Hall.
  induction Hall as [|[row_idx part] rest Hpos _ IH]; intros idx; simpl.
  - by exists [].
  - destruct (template_entry_ok df manufacturers panel_count idx row_idx part
                Hp Hsized Hpos) as [r ->].
    destruct (IH (idx + 1)) as [rs ->]. simpl. by eexists.
Qed.

(** On a frame whose labels are positions, so are the labels reported. *)
Lemma detect_part_numbers_positional (df : DataFrame) :
  positional df = true →
  Forall (λ p, position_of df p.1 = true) (detect_part_numbers df).
Proof.
  unfold positional. rewrite forallb_forall. intros Hall.
  apply Forall_forall. intros [idx part] Hin.
  apply detect_part_numbers_elem in Hin as (row & Hin & _).
  apply list_elem_of_In in Hin. exact (Hall _ Hin).
Qed.

(** C9. In every record the template mapper returns for a panel count of 1
    or more, the total quantity is the per-unit quantity times the panel
    count and the per-unit quantity is at least 1.  The mapper does return
    its records on a sized frame whose index labels are positions, the
    default index among them. *)
Theorem map_to_template_quantities (df : DataFrame) (panel_count : Z) :
  1 ≤ panel_count →
  (∀ records, map_to_template df panel_count = Ok records →
     Forall (quantities_of panel_count) records)
  ∧ (positional df = true → sized df = true →
     ∃ records, map_to_template df panel_count = Ok records
       ∧ Forall (quantities_of panel_count) records).
Proof.
  intros Hp.
  assert (Hq : ∀ records, map_to_template df panel_count = Ok records →
                 Forall (quantities_of panel_count) records).
  { intros records. apply template_rows_quantities. }
  split; [exact Hq|]. intros Hpos Hsized.
  destruct (template_rows_ok df (detect_manufacturers df) panel_count
              (detect_part_numbers df) ltac:(lia) Hsized
              (detect_part_numbers_positional df Hpos) 1) as [records Hrecords].
  exists records. split; [done|]. by apply Hq.
Qed.

Lemma map_to_template_quantities_witness :
  ∃ records, map_to_template [(0, ["RK73B2ATTD1002F"; "R1,R5"; "KOA"])] 8 = Ok records
    ∧ Forall (quantities_of 8) records.
Proof.
  apply (map_to_template_quantities [(0, ["RK73B2ATTD1002F"; "R1,R5"; "KOA"])] 8);
    [lia|reflexivity|reflexivity].
Defined.

(** C1 on the code. The row RK73B2ATTD1002F / R1,R5 / KOA gives one record
    with designators R1,R5, manufacturer KOA, the resistor display name and
    package SMD, but its part number is RK73B2ATTD1002: the first pattern
    ends on digits and leaves the final letter out, and no other match
    scores higher. *)
Theorem resistor_row_end_to_end :
  detect_part_numbers [(0, ["RK73B2ATTD1002F"; "R1,R5"; "KOA"])]
    = [(0, "RK73B2ATTD1002")]
  ∧ ∃ r, map_to_template [(0, ["RK73B2ATTD1002F"; "R1,R5"; "KOA"])] 8 = Ok [r]
      ∧ r !! "電子部品型番" = Some (VStr "RK73B2ATTD1002")
      ∧ r !! "配置記号" = Some (VStr "R1,R5")
      ∧ r !! "メーカー" = Some (VStr "KOA")
      ∧ r !! "品名" = Some (VStr "チップ抵抗")
      ∧ r !! "部品型番" = Some (VStr "SMD").
Proof.
  split; [vm_compute; reflexivity|].
  assert (H : match map_to_template [(0, ["RK73B2ATTD1002F"; "R1,R5"; "KOA"])] 8 with
              | Ok [r] =>
                  map (λ key, r !! key)
                    ["電子部品型番"; "配置記号"; "メーカー"; "品名"; "部品型番"]
                  = [Some (VStr "RK73B2ATTD1002"); Some (VStr "R1,R5");
                     Some (VStr "KOA"); Some (VStr "チップ抵抗");
                     Some (VStr "SMD")]
              | _ => False
              end) by (vm_compute; reflexivity).
  destruct (map_to_template _ _) as [[|r [|r' rs]]|e]; try done.
  exists r. split; [done|].
  injection H as H1 H2 H3 H4 H5. by repeat split.
Qed.

(** * Further properties *)

(** ** Keeping the best of a list *)

Lemma pick_lt {A X : Type} (sel : X → A) (score : X → Z) (b : A * Z) (x : X) :
  snd b < score x → pick sel score b x = (sel x, score x).
Proof. intros H. unfold pick. by destruct (Z.ltb_spec (snd b) (score x)); [|lia]. Qed.

Lemma pick_ge {A X : Type} (sel : X → A) (score : X → Z) (b : A * Z) (x : X) :
  score x ≤ snd b → pick sel score b x = b.
Proof. intros H. unfold pick. by destruct (Z.ltb_spec (snd b) (score x)); [lia|]. Qed.

Lemma fold_pick {A X : Type} (sel : X → A) (score : X → Z) (l : list X) :
  ∀ b : A * Z,
    (fold_left (pick sel score) l b = b ∧ Forall (λ x, score x ≤ snd b) l)
    ∨ ∃ c, fold_left (pick sel score) l b = (sel c, score c)
        ∧ snd b < score c ∧ first_best score c l.
Proof.
  induction l as [|x l IH]; intros b; simpl; [by left|].
  destruct (Z.lt_ge_cases (snd b) (score x)) as [Hlt|Hge];
    [rewrite pick_lt by done|rewrite pick_ge by done].
  - right. destruct (IH (sel x, score x)) as [[-> Hall]|(c & -> & Hc & Hbest)].
    + exists x. repeat split; [done|]. exists [], l. by repeat split.
    + simpl in Hc. exists c. repeat split; [lia|].
      destruct Hbest as (before & after & -> & Hb & Ha).
      exists (x :: before), after. repeat split; [|done]. by constructor.
  - destruct (IH b) as [[-> Hall]|(c & -> & Hc & Hbest)].
    + left. split; [done|]. by constructor.
    + right. exists c. repeat split; [done|].
      destruct Hbest as (before & after & -> & Hb & Ha).
      exists (x :: before), after. repeat split; [|done]. constructor; [lia|done].
Qed.

Lemma fold_left_flat_map {A B C : Type} (f : A → C → A) (g : B → list C)
    (l : list B) (a : A) :
  fold_left f (flat_map g l) a = fold_left (λ a x, fold_left f (g x) a) l a.
Proof.
  revert a. induction l as [|x l IH]; intros a; simpl; [done|].
  by rewrite fold_left_app, IH.
Qed.

Lemma fold_left_map {A B C : Type} (f : A → C → A) (g : B → C) (l : list B) (a : A) :
  fold_left f (map g l) a = fold_left (λ a x, f a (g x)) l a.
Proof. revert a. induction l as [|x l IH]; intros a; simpl; [done|]. by rewrite IH. Qed.

Lemma fold_left_ext {A B : Type} (f g : A → B → A) (l : list B) (a : A) :
  (∀ a x, f a x = g a x) → fold_left f l a = fold_left g l a.
Proof.
  intros H. revert a. induction l as [|x l IH]; intros a; simpl; [done|].
  by rewrite H, IH.
Qed.

(** The three nested loops of [detect_part_numbers] over one row are one
    pass over the row's candidates. *)
Lemma scan_row_candidates (row : Row) (b : best) :
  fold_left scan_cell row b
  = fold_left (pick (λ c, Some c.2) confidence) (row_candidates row) b.
Proof.
  unfold row_candidates. rewrite fold_left_flat_map.
  apply fold_left_ext. intros a cell. unfold scan_cell, cell_candidates, skipped.
  destruct (String.eqb (Str.strip cell) ""); cbn [orb]; [done|].
  destruct (string_in (Str.lower (Str.strip cell)) non_part_labels); [done|].
  rewrite fold_left_flat_map. apply fold_left_ext. intros a' p.
  unfold scan_pattern. by rewrite fold_left_map.
Qed.

(** ** Part numbers *)

Lemma matches_min_len (ic : bool) (r : regex) (i : nat) (w : string) :
  matches ic r i w → (min_len r ≤ String.length w)%nat.
Proof.
  induction 1; simpl; rewrite ?str_length_app; lia.
Qed.

Lemma str_exists_app (P : ascii → bool) (s t : string) :
  str_exists P (s +:+ t) = str_exists P s || str_exists P t.
Proof.
  induction s as [|c s IH]; [done|]. rewrite str_app_cons. simpl.
  by rewrite IH, orb_assoc.
Qed.

Lemma class_within_mem (ic : bool) (cs : charset) (P : ascii → bool) (c : ascii) :
  class_within ic cs P = true → charset_mem ic cs c = true → P c = true.
Proof.
  unfold class_within. rewrite forallb_forall. intros H Hc.
  specialize (H (nat_of_ascii c)). rewrite ascii_nat_embedding, Hc in H.
  apply H. apply in_seq. pose proof (nat_ascii_bounded c). lia.
Qed.

Lemma matches_must_have (ic : bool) (P : ascii → bool) (r : regex) (i : nat)
    (w : string) :
  must_have ic P r = true → matches ic r i w → str_exists P w = true.
Proof.
  intros Hm H. induction H; simpl in Hm; try done.
  - simpl. by rewrite (class_within_mem _ _ _ _ Hm).
  - rewrite str_exists_app. apply orb_true_iff in Hm as [Hm|Hm].
    + by rewrite IHmatches1.
    + by rewrite IHmatches2, orb_true_r.
  - apply andb_true_iff in Hm as [Hm _]. auto.
  - apply andb_true_iff in Hm as [_ Hm]. auto.
Qed.

(** What every entry of the [patterns] table asks of its matches. *)
Lemma patterns_shape :
  Forall (λ p, (2 ≤ min_len p.1)%nat ∧ 5 ≤ p.2
               ∧ must_have true is_letter p.1 = true
               ∧ must_have true Str.is_digit p.1 = true) patterns.
Proof. repeat constructor; vm_compute; congruence. Qed.

Lemma match_confidence_lower_bound (base_score : Z) (m : string) :
  base_score + len m ≤ match_confidence base_score m.
Proof.
  unfold match_confidence. destruct (search false bonus_pattern m);
    destruct (8 <? len m); lia.
Qed.

(** A candidate is a match of a pattern of the table, cut from a cell of
    the row that is not passed over. *)
Lemma row_candidates_elem (row : Row) (c : Z * string) :
  c ∈ row_candidates row →
  ∃ cell pattern, cell ∈ row ∧ skipped cell = false
    ∧ (pattern, c.1) ∈ patterns
    ∧ denoted true pattern c.2 ∧ substring_of c.2 (Str.strip cell).
Proof.
  unfold row_candidates. rewrite list_elem_of_In, in_flat_map.
  intros (cell & Hcell & Hc). apply list_elem_of_In in Hcell.
  unfold cell_candidates in Hc. destruct (skipped cell) eqn:Hs; [done|].
  apply in_flat_map in Hc as ([pattern base] & Hp & Hc).
  apply in_map_iff in Hc as (m & <- & Hm).
  apply list_elem_of_In in Hp, Hm. cbn [fst snd] in *.
  destruct (scattered_elem _ _ _ _ (findall_scattered true pattern _) Hm)
    as [Hden Hsub].
  by exists cell, pattern.
Qed.

Lemma candidate_shape (row : Row) (c : Z * string) :
  c ∈ row_candidates row →
  (2 ≤ String.length c.2)%nat ∧ 0 < confidence c
  ∧ str_exists is_letter c.2 = true ∧ str_exists Str.is_digit c.2 = true.
Proof.
  intros Hc. apply row_candidates_elem in Hc
    as (cell & pattern & _ & _ & Hp & [i Hm] & _).
  pose proof patterns_shape as HF. rewrite Forall_forall in HF.
  destruct (HF _ Hp) as (Hlen & Hbase & Hl & Hd). simpl in *.
  pose proof (matches_min_len _ _ _ _ Hm) as Hmin.
  pose proof (match_confidence_lower_bound c.1 c.2) as Hconf.
  repeat split.
  - lia.
  - unfold confidence, len in *. lia.
  - by eapply matches_must_have.
  - by eapply matches_must_have.
Qed.

(** The part of a row is its first candidate of highest confidence; a row
    without candidates has none. *)
Lemma detect_row_spec (row : Row) :
  match detect_row row with
  | Some part => ∃ base, first_best confidence (base, part) (row_candidates row)
  | None => row_candidates row = []
  end.
Proof.
  unfold detect_row. rewrite scan_row_candidates.
  destruct (fold_pick (λ c : Z * string, Some c.2) confidence (row_candidates row)
              (None, 0)) as [[-> Hall]|([base part] & -> & Hc & Hbest)]; simpl.
  - destruct (row_candidates row) as [|c l] eqn:Hl; [done|].
    apply Forall_cons in Hall as [Hc _]. simpl in Hc.
    destruct (candidate_shape row c) as (_ & Hpos & _); [rewrite Hl; left|lia].
  - assert (Hin : (base, part) ∈ row_candidates row).
    { destruct Hbest as (before & after & -> & _). set_solver. }
    destruct (candidate_shape row _ Hin) as (Hlen & _). simpl in Hlen.
    destruct part; [simpl in Hlen; lia|]. simpl. by exists base.
Qed.

Lemma detect_part_numbers_app (df1 df2 : DataFrame) :
  detect_part_numbers (df1 ++ df2) = detect_part_numbers df1 ++ detect_part_numbers df2.
Proof.
  induction df1 as [|[idx row] df1 IH]; [done|]. simpl.
  destruct (detect_row row); by rewrite IH.
Qed.

(** X1. [detect_part_numbers] reports the rows in frame order, each at
    most once: the labels of the pairs it returns are, in this order, index
    labels of the frame, picked without repetition of a row; so there are
    no more pairs than rows, and no label twice on a frame whose labels are
    all different. *)
Theorem detect_part_numbers_one_per_row (df : DataFrame) :
  (detect_part_numbers df).*1 `sublist_of` df.*1
  ∧ (length (detect_part_numbers df) ≤ length df)%nat
  ∧ (NoDup df.*1 → NoDup (detect_part_numbers df).*1).
Proof.
  assert (Hsub : (detect_part_numbers df).*1 `sublist_of` df.*1).
  { induction df as [|[idx row] df IH]; [done|]. simpl.
    destruct (detect_row row); [by apply sublist_skip|by apply sublist_cons]. }
  split; [exact Hsub|]. split.
  - apply sublist_length in Hsub. by rewrite !length_fmap in Hsub.
  - intros Hnd. by eapply sublist_NoDup.
Qed.

Lemma detect_part_numbers_one_per_row_witness :
  NoDup (detect_part_numbers
           [(0, ["RK73B2ATTD1002F"; "R1,R5"; "KOA"]); (2, ["GRM188"; "C3"])]).*1.
Proof.
  apply (detect_part_numbers_one_per_row
           [(0, ["RK73B2ATTD1002F"; "R1,R5"; "KOA"]); (2, ["GRM188"; "C3"])]).
  apply NoDup_ListNoDup. repeat constructor; simpl; intuition lia.
Defined.

(** X2. The part number reported for a row is the first, in scan order
    (cells left to right, patterns in table order, matches left to right),
    of the row's candidate matches with the highest confidence: every
    earlier candidate scores strictly less, no later one scores more. *)
Theorem detect_part_numbers_first_best (df : DataFrame) (idx : Z) (part : string) :
  (idx, part) ∈ detect_part_numbers df →
  ∃ row base, (idx, row) ∈ df
    ∧ first_best confidence (base, part) (row_candidates row).
Proof.
  intros (row & Hrow & Hd)%detect_part_numbers_elem.
  pose proof (detect_row_spec row) as H. rewrite Hd in H.
  destruct H as [base H]. by exists row, base.
Qed.

Lemma detect_part_numbers_first_best_witness :
  ∃ row base, (0, row) ∈ [(0, ["RK73B2ATTD1002F"; "R1,R5"; "KOA"])]
    ∧ first_best confidence (base, "RK73B2ATTD1002") (row_candidates row).
Proof.
  apply (detect_part_numbers_first_best [(0, ["RK73B2ATTD1002F"; "R1,R5"; "KOA"])] 0).
  vm_compute. left.
Defined.

(** X3. A row is reported exactly when it has a candidate: some cell that
    is neither blank nor a column label holds a match of one of the
    patterns. *)
Theorem detect_part_numbers_reported (df : DataFrame) (idx : Z) :
  (∃ part, (idx, part) ∈ detect_part_numbers df)
  ↔ ∃ row, (idx, row) ∈ df ∧ row_candidates row ≠ [].
Proof.
  split.
  - intros (part & (row & Hrow & Hd)%detect_part_numbers_elem).
    exists row. split; [done|]. pose proof (detect_row_spec row) as H.
    rewrite Hd in H. destruct H as (base & before & after & -> & _).
    by destruct before.
  - intros (row & Hrow & Hne). pose proof (detect_row_spec row) as H.
    destruct (detect_row row) as [part|] eqn:Hd; [|done].
    exists part. apply detect_part_numbers_elem. by exists row.
Qed.

(** The part of a row is cut from one of its cells and has the shape the
    patterns ask for. *)
Lemma detect_row_shape (row : Row) (part : string) :
  detect_row row = Some part →
  ∃ cell, cell ∈ row ∧ skipped cell = false
    ∧ substring_of part (Str.strip cell)
    ∧ (2 ≤ String.length part)%nat
    ∧ str_exists is_letter part = true
    ∧ str_exists Str.is_digit part = true.
Proof.
  intros Hd. pose proof (detect_row_spec row) as H. rewrite Hd in H.
  destruct H as (base & before & after & Hl & _).
  assert (Hin : (base, part) ∈ row_candidates row) by (rewrite Hl; set_solver).
  destruct (row_candidates_elem row _ Hin) as (cell & pattern & Hcell & Hs & _ & _ & Hsub).
  destruct (candidate_shape row _ Hin) as (Hlen & _ & Hletter & Hdigit).
  by exists cell.
Qed.

(** X4. On a frame of ASCII text, every reported part number is cut out of
    a cell of its row, a cell that is neither blank nor a column label; it
    has at least two characters, among them a letter and a digit. *)
Theorem detect_part_numbers_shape (df : DataFrame) (idx : Z) (part : string) :
  ascii_frame df = true →
  (idx, part) ∈ detect_part_numbers df →
  ∃ row cell, (idx, row) ∈ df ∧ cell ∈ row ∧ skipped cell = false
    ∧ substring_of part (Str.strip cell)
    ∧ (2 ≤ String.length part)%nat
    ∧ str_exists is_letter part = true
    ∧ str_exists Str.is_digit part = true.
Proof.
  intros _ (row & Hrow & Hd)%detect_part_numbers_elem.
  destruct (detect_row_shape row part Hd) as (cell & H).
  by exists row, cell.
Qed.

Lemma detect_part_numbers_shape_witness :
  ∃ row cell, (0, row) ∈ [(0, ["RK73B2ATTD1002F"; "R1,R5"; "KOA"])]
    ∧ cell ∈ row ∧ skipped cell = false
    ∧ substring_of "RK73B2ATTD1002" (Str.strip cell)
    ∧ (2 ≤ String.length "RK73B2ATTD1002")%nat
    ∧ str_exists is_letter "RK73B2ATTD1002" = true
    ∧ str_exists Str.is_digit "RK73B2ATTD1002" = true.
Proof.
  apply (detect_part_numbers_shape [(0, ["RK73B2ATTD1002F"; "R1,R5"; "KOA"])] 0).
  - reflexivity.
  - vm_compute. left.
Defined.

Lemma str_exists_lstrip (P : ascii → bool) (s : string) :
  str_exists P (Str.lstrip s) = true → str_exists P s = true.
Proof.
  induction s as [|c s IH]; [done|]. simpl.
  destruct (Str.is_space c); [|done]. intros H. by rewrite IH, orb_true_r.
Qed.

Lemma str_exists_rstrip (P : ascii → bool) (s : string) :
  str_exists P (Str.rstrip s) = true → str_exists P s = true.
Proof.
  induction s as [|c s IH]; [done|]. simpl.
  destruct (Str.rstrip s) as [|d t] eqn:Hr.
  - destruct (Str.is_space c); [done|]. simpl. rewrite orb_false_r. by intros ->.
  - simpl in *. intros [->|H]%orb_true_iff; [done|].
    by rewrite IH, orb_true_r.
Qed.

Lemma str_exists_strip (P : ascii → bool) (s : string) :
  str_exists P (Str.strip s) = true → str_exists P s = true.
Proof. intros H. by apply str_exists_lstrip, str_exists_rstrip. Qed.

(** X5. A row of ASCII text each of whose cells is blank, a column label
    or free of digits is never reported: wherever it stands in a frame, the
    frame yields the part numbers it yields without that row. *)
Theorem detect_part_numbers_needs_digit (before after : DataFrame) (idx : Z)
    (row : Row) :
  ascii_row row = true →
  Forall (λ cell, skipped cell = true ∨ str_exists Str.is_digit cell = false) row →
  detect_part_numbers (before ++ (idx, row) :: after)
    = detect_part_numbers before ++ detect_part_numbers after.
Proof.
  intros _ Hall. rewrite detect_part_numbers_app. f_equal. simpl.
  destruct (detect_row row) as [part|] eqn:Hd; [exfalso|done].
  destruct (detect_row_shape row part Hd)
    as (cell & Hcell & Hs & (pre & post & Hsub) & _ & _ & Hdigit).
  rewrite Forall_forall in Hall. destruct (Hall _ Hcell) as [Hs'|Hnd]; [congruence|].
  assert (str_exists Str.is_digit (Str.strip cell) = true) as Hd'.
  { rewrite Hsub, !str_exists_app, Hdigit. by rewrite orb_true_r. }
  apply str_exists_strip in Hd'. congruence.
Qed.

Lemma detect_part_numbers_needs_digit_witness :
  detect_part_numbers
    ([(0, ["GRM188"; "C3"])] ++ (1, ["Item"; "Part Number"; "Maker"; ""]) :: [])
  = detect_part_numbers [(0, ["GRM188"; "C3"])] ++ detect_part_numbers [].
Proof.
  apply (detect_part_numbers_needs_digit
           [(0, ["GRM188"; "C3"])] [] 1 ["Item"; "Part Number"; "Maker"; ""]).
  - reflexivity.
  - repeat (apply List.Forall_cons; [first [left; reflexivity|right; reflexivity]|]).
    apply List.Forall_nil.
Defined.

(** ** Reference designators, further *)

Lemma ref_scan_candidates (row : Row) (b : string * Z) :
  fold_left ref_scan_cell row b
  = fold_left (pick (λ m, m) ref_count) (ref_candidates row) b.
Proof.
  unfold ref_candidates. rewrite fold_left_flat_map.
  apply fold_left_ext. intros a cell. unfold ref_scan_cell.
  rewrite fold_left_flat_map. done.
Qed.

(** X6. The extractor formats the first, in scan order, of the row's
    candidate matches with the most designators (counted in upper case);
    when no candidate has one, it formats the empty string. *)
Theorem extract_reference_designators_first_best (df : DataFrame) (i : Z)
    (row : Row) :
  iloc df i = Ok row →
  ∃ best_match,
    extract_reference_designators df i = Ok (format_refs best_match)
    ∧ (best_match = "" ∧ Forall (λ m, ref_count m ≤ 0) (ref_candidates row)
       ∨ 0 < ref_count best_match
         ∧ first_best ref_count best_match (ref_candidates row)).
Proof.
  intros Hrow. rewrite (extract_iloc df i row Hrow).
  exists (best_ref_match row). split; [done|].
  unfold best_ref_match. rewrite ref_scan_candidates.
  destruct (fold_pick (λ m : string, m) ref_count (ref_candidates row) ("", 0))
    as [[-> Hall]|(c & -> & Hc & Hbest)]; [by left|by right].
Qed.

Lemma extract_reference_designators_first_best_witness :
  ∃ best_match,
    extract_reference_designators [(0, ["RK73B2ATTD1002F"; "R1,R5"; "KOA"])] 0
      = Ok (format_refs best_match)
    ∧ (best_match = ""
         ∧ Forall (λ m, ref_count m ≤ 0)
             (ref_candidates ["RK73B2ATTD1002F"; "R1,R5"; "KOA"])
       ∨ 0 < ref_count best_match
         ∧ first_best ref_count best_match
             (ref_candidates ["RK73B2ATTD1002F"; "R1,R5"; "KOA"])).
Proof.
  apply (extract_reference_designators_first_best
           [(0, ["RK73B2ATTD1002F"; "R1,R5"; "KOA"])] 0
           ["RK73B2ATTD1002F"; "R1,R5"; "KOA"]).
  reflexivity.
Defined.

(** X7. Counting the extractor's output gives the number of designators
    it lists: for every row of the frame, [count_references] of the
    returned string is the length of its comma-separated list, and 0 for
    the empty string. *)
Theorem count_references_of_extracted (df : DataFrame) (i : Z) (row : Row) :
  iloc df i = Ok row →
  ∃ s, extract_reference_designators df i = Ok s
    ∧ count_references s
        = (if Str.nonempty s then Z.of_nat (length (designators s)) else 0)
    ∧ (s ≠ "" → 1 ≤ count_references s).
Proof.
  intros Hrow. rewrite (extract_iloc df i row Hrow).
  eexists; split; [done|].
  destruct (format_refs_count (best_ref_match row)) as (Hc & Hpos & _).
  by split.
Qed.

Lemma count_references_of_extracted_witness :
  ∃ s, extract_reference_designators [(0, ["RK73B2ATTD1002F"; "R1,R5"; "KOA"])] 0 = Ok s
    ∧ count_references s
        = (if Str.nonempty s then Z.of_nat (length (designators s)) else 0)
    ∧ (s ≠ "" → 1 ≤ count_references s).
Proof.
  apply (count_references_of_extracted
           [(0, ["RK73B2ATTD1002F"; "R1,R5"; "KOA"])] 0
           ["RK73B2ATTD1002F"; "R1,R5"; "KOA"]).
  reflexivity.
Defined.

Lemma split_join_pieces (pieces : list string) :
  pieces ≠ [] → Forall (λ t, mem_string "," t = false) pieces →
  Str.split "," (Str.join "," pieces) = pieces.
Proof.
  intros Hne Hall. induction Hall as [|t ts Ht Hts IH]; [done|]. clear Hne.
  unfold Str.join in *. simpl.
  destruct ts as [|t' ts].
  - rewrite <- (str_app_nil_r t) at 1. rewrite split_app by done.
    cbn [Str.split hd tl]. by rewrite str_app_nil_r.
  - rewrite split_app by done.
    change (Str.split "," ("," +:+ String.concat "," (t' :: ts)))
      with ("" :: Str.split "," (String.concat "," (t' :: ts))).
    simpl hd. simpl tl. rewrite str_app_nil_r. f_equal. by apply IH.
Qed.

Lemma join_empty (pieces : list string) :
  Str.join "," pieces = "" → pieces = [] ∨ pieces = [""].
Proof.
  unfold Str.join. destruct pieces as [|t [|t' ts]]; simpl; [by left|intros ->; by right|].
  destruct t; [|done]. rewrite str_app_nil_l. done.
Qed.

(** X8. [count_references] counts the pieces between commas that are not
    blank: for pieces free of commas and of white space other than
    ASCII's, the count of their comma-joined string is the number of pieces
    that are not empty or white space only.  In particular the empty string
    counts 0. *)
Theorem count_references_join (pieces : list string) :
  Forall (λ t, mem_string "," t = false) pieces →
  forallb ascii_spaced pieces = true →
  count_references (Str.join "," pieces)
    = Z.of_nat (length (filter (λ t, nonblank t = true) pieces)).
Proof.
  intros Hall _. unfold count_references.
  destruct (Str.nonempty (Str.join "," pieces)) eqn:Hne.
  - assert (pieces ≠ []) by (by intros ->).
    by rewrite split_join_pieces.
  - assert (Str.join "," pieces = "") as He by (by destruct (Str.join "," pieces)).
    by destruct (join_empty _ He) as [->| ->].
Qed.

Lemma count_references_join_witness :
  count_references (Str.join "," ["R1"; " "; "C2 "; ""])
    = Z.of_nat (length (filter (λ t, nonblank t = true) ["R1"; " "; "C2 "; ""])).
Proof.
  apply (count_references_join ["R1"; " "; "C2 "; ""]).
  - repeat constructor.
  - reflexivity.
Defined.

(** ** Manufacturers *)

Lemma first_manufacturer_names (cell_value : string) :
  names_manufacturer cell_value = true
  ↔ is_Some (first_manufacturer (Str.strip cell_value)).
Proof.
  unfold names_manufacturer, first_manufacturer.
  induction common_manufacturers as [|m l IH]; simpl.
  - split; [done|]. by intros [? ?].
  - destruct (Str.contains _ _); simpl; [|done]. split; [by eexists|done].
Qed.

(** The loop over the cells of the row labelled [idx] touches entry [idx]
    only, and leaves there a name found in a cell, if any cell has one. *)
Lemma manufacturer_cells (idx : Z) (row : Row) (acc : gmap Z string) :
  (∀ j, j ≠ idx → fold_left (manufacturer_cell idx) row acc !! j = acc !! j)
  ∧ (existsb names_manufacturer row = false →
       fold_left (manufacturer_cell idx) row acc !! idx = acc !! idx)
  ∧ (existsb names_manufacturer row = true →
       ∃ cell m, cell ∈ row
         ∧ first_manufacturer (Str.strip cell) = Some m
         ∧ fold_left (manufacturer_cell idx) row acc !! idx = Some m).
Proof.
  revert acc. induction row as [|cell row IH]; intros acc; simpl.
  - by repeat split.
  - destruct (IH (manufacturer_cell idx acc cell)) as (Hother & Hnone & Hsome).
    pose proof (first_manufacturer_names cell) as Hn.
    unfold manufacturer_cell in *.
    destruct (first_manufacturer (Str.strip cell)) as [m|] eqn:Hm.
    + assert (names_manufacturer cell = true) as -> by (apply Hn; by eexists).
      simpl. repeat split; [|done|].
      * intros j Hj. by rewrite Hother, lookup_insert_ne.
      * intros _. destruct (existsb names_manufacturer row) eqn:Hrow.
        -- destruct (Hsome eq_refl) as (cell' & m' & Hcell' & Hm' & Hl).
           exists cell', m'. repeat split; [by right|done..].
        -- exists cell, m. repeat split; [by left|done|].
           by rewrite (Hnone eq_refl), lookup_insert_eq.
    + assert (names_manufacturer cell = false) as ->.
      { destruct (names_manufacturer cell); [|done].
        destruct Hn as [Hn _]. by destruct (Hn eq_refl). }
      simpl. repeat split; [done..|].
      intros Hrow. destruct (Hsome Hrow) as (cell' & m' & Hcell' & Hm' & Hl).
      exists cell', m'. repeat split; [by right|done..].
Qed.

Lemma named_spec (idx : Z) (df : DataFrame) :
  named idx df = true
  ↔ ∃ row, (idx, row) ∈ df ∧ existsb names_manufacturer row = true.
Proof.
  unfold named. rewrite existsb_exists. split.
  - intros ([idx' row] & Hin & H). cbn [fst snd] in H.
    apply andb_true_iff in H as [He Hn]. apply Z.eqb_eq in He as ->.
    exists row. split; [by apply list_elem_of_In|done].
  - intros (row & Hin & Hn). exists (idx, row).
    split; [by apply list_elem_of_In|]. simpl. by rewrite Z.eqb_refl.
Qed.

(** The entry of a label after the loop over the rows: untouched when no
    row with this label names a manufacturer, else a name found in a cell
    of such a row. *)
Lemma manufacturer_rows_lookup (df : DataFrame) (idx : Z) :
  ∀ acc : gmap Z string,
    if named idx df
    then ∃ row cell m, (idx, row) ∈ df ∧ cell ∈ row
           ∧ first_manufacturer (Str.strip cell) = Some m
           ∧ manufacturer_rows df acc !! idx = Some m
    else manufacturer_rows df acc !! idx = acc !! idx.
Proof.
  induction df as [|[idx' row'] df IH]; intros acc; [done|].
  cbn [manufacturer_rows].
  destruct (manufacturer_cells idx' row' acc) as (Hother & Hnone & Hsome).
  specialize (IH (fold_left (manufacturer_cell idx') row' acc)).
  change (named idx ((idx', row') :: df))
    with ((idx' =? idx) && existsb names_manufacturer row' || named idx df).
  destruct (named idx df) eqn:Htail.
  - rewrite orb_true_r. destruct IH as (row & cell & m & Hin & H).
    exists row, cell, m. split; [by right|done].
  - rewrite orb_false_r. rewrite IH.
    destruct (Z.eqb_spec idx' idx) as [->|Hne]; cbn [andb].
    + destruct (existsb names_manufacturer row') eqn:Hn.
      * destruct (Hsome eq_refl) as (cell & m & Hcell & Hm & Hl).
        exists row', cell, m. repeat split; [left|done..].
      * by apply Hnone.
    + apply Hother. congruence.
Qed.

(** X9. [detect_manufacturers] has an entry for an index label exactly
    when, in a row with this label, a cell contains one of the known names
    in any letter case; the entry is then a known name, the first of the
    list found in some cell of such a row.  A label no row has gets no
    entry. *)
Theorem detect_manufacturers_entries (df : DataFrame) (idx : Z) :
  (is_Some (detect_manufacturers df !! idx)
     ↔ ∃ row, (idx, row) ∈ df ∧ existsb names_manufacturer row = true)
  ∧ ∀ manufacturer, detect_manufacturers df !! idx = Some manufacturer →
      ∃ row cell, (idx, row) ∈ df ∧ cell ∈ row
        ∧ first_manufacturer (Str.strip cell) = Some manufacturer
        ∧ manufacturer ∈ common_manufacturers
        ∧ Str.contains (Str.lower manufacturer) (Str.lower (Str.strip cell)) = true.
Proof.
  unfold detect_manufacturers. rewrite <- named_spec.
  pose proof (manufacturer_rows_lookup df idx ∅) as H.
  destruct (named idx df).
  - destruct H as (row & cell & m & Hin & Hcell & Hm & Hl). split.
    + split; [done|]. intros _. by exists m.
    + intros manufacturer Hl'. rewrite Hl in Hl'. injection Hl' as <-.
      exists row, cell. repeat split; try done.
      * apply find_some in Hm as [Hm _]. by apply list_elem_of_In.
      * by apply find_some in Hm as [_ Hc].
  - rewrite H, lookup_empty. split.
    + split; [by intros [? ?]|done].
    + intros manufacturer Hl. discriminate Hl.
Qed.

(** ** Classification, further *)

Lemma component_patterns_classified :
  Forall (λ entry, classified (default "" (categories !! entry.1))
                     (update base_defaults (info_defaults entry.2)))
         component_patterns.
Proof.
  repeat constructor; try reflexivity;
    intros _; eexists; (split; [reflexivity|discriminate]).
Qed.

Lemma manufacturer_defaults_classified :
  map_Forall (λ _ d, classified "" (update base_defaults d)) manufacturer_defaults.
Proof.
  rewrite map_Forall_to_list.
  set (l := map_to_list manufacturer_defaults). vm_compute in l. subst l.
  repeat constructor; try reflexivity; done.
Qed.

Lemma base_defaults_classified : classified "" base_defaults.
Proof. repeat split; try reflexivity; done. Qed.

Lemma first_match_classified (text : string) (component_type : string)
    (info : component_info) :
  first_match text = Some (component_type, info) →
  classified (default "" (categories !! component_type))
    (update base_defaults (info_defaults info)).
Proof.
  intros H. apply find_some in H as [Hin _]. apply list_elem_of_In in Hin.
  pose proof component_patterns_classified as HF.
  rewrite Forall_forall in HF. exact (HF _ Hin).
Qed.

Lemma manufacturer_fallback_classified (manufacturer : value) :
  ∃ d, match manufacturer with
       | VStr m =>
           match manufacturer_defaults !! m with
           | Some d => Ok (update base_defaults d)
           | None => Ok base_defaults
           end
       | VInt _ => Ok base_defaults
       end = Ok d
    ∧ classified "" d.
Proof.
  destruct manufacturer as [m|z];
    [|eexists; split; [done|apply base_defaults_classified]].
  destruct (manufacturer_defaults !! m) as [d|] eqn:Hm;
    [|eexists; split; [done|apply base_defaults_classified]].
  eexists; split; [done|]. by apply (manufacturer_defaults_classified m d).
Qed.

(** X10. On text [classify_component] never fails and agrees with
    [get_component_category]: the defaults it returns have exactly the
    keys 品名, 部品型番 and 実装/検査; the assembly flag is always 実装; the
    package is DIP when the category is the connector one and SMD
    otherwise; and whenever a category is found the display name is not
    empty. *)
Theorem classify_component_agrees (part_number ref_designator : string)
    (manufacturer : value) :
  ∃ d, classify_component (VStr part_number) manufacturer (VStr ref_designator) = Ok d
    ∧ classified (get_component_category part_number ref_designator) d.
Proof.
  unfold classify_component, get_component_category, match_field.
  cbn [truthy mbind result_bind].
  destruct (Str.nonempty ref_designator); cbn [mbind result_bind].
  - destruct (first_match ref_designator) as [[ty info]|] eqn:Href.
    { eexists; split; [done|]. by eapply first_match_classified. }
    destruct (Str.nonempty part_number); cbn [mbind result_bind].
    + destruct (first_match part_number) as [[ty info]|] eqn:Hpart.
      { eexists; split; [done|]. by eapply first_match_classified. }
      apply manufacturer_fallback_classified.
    + apply manufacturer_fallback_classified.
  - destruct (Str.nonempty part_number); cbn [mbind result_bind].
    + destruct (first_match part_number) as [[ty info]|] eqn:Hpart.
      { eexists; split; [done|]. by eapply first_match_classified. }
      apply manufacturer_fallback_classified.
    + apply manufacturer_fallback_classified.
Qed.

(** ** Package detection *)

Lemma prefix_contains (needle hay : string) :
  String.prefix needle hay = true → Str.contains needle hay = true.
Proof. intros H. destruct hay; cbn [Str.contains]; by rewrite H. Qed.

Lemma contains_tail (c : ascii) (needle hay : string) :
  Str.contains (String c needle) hay = true → Str.contains needle hay = true.
Proof.
  induction hay as [|h hay IH]; [done|].
  cbn [Str.contains]. intros [Hp|Hc]%orb_true_iff.
  - cbn [String.prefix] in Hp. destruct (ascii_dec c h); [|done].
    rewrite (prefix_contains _ _ Hp). by rewrite orb_true_r.
  - rewrite (IH Hc). by rewrite orb_true_r.
Qed.

Lemma contains_tail_false (c : ascii) (needle hay : string) :
  Str.contains needle hay = false → Str.contains (String c needle) hay = false.
Proof.
  intros H. destruct (Str.contains (String c needle) hay) eqn:Hc; [|done].
  apply contains_tail in Hc. congruence.
Qed.

(** X11. On text [detect_package_type] never fails, ignores the
    manufacturer and the letter case, and depends on five tokens only:
    the BGA label when BGA occurs in the part number, else DIP when DIP,
    SOIC, SOP or QFP occurs, else SMD.  The longer tokens of its lists and
    the chip-size codes never change the answer. *)
Theorem detect_package_type_tokens (part_number : string) (manufacturer : value) :
  detect_package_type (VStr part_number) manufacturer
    = Ok (package_by_tokens (Str.upper part_number)).
Proof.
  unfold detect_package_type, package_by_tokens, bga_patterns, dip_patterns.
  set (u := Str.upper part_number). cbn [existsb].
  destruct (Str.contains "BGA" u) eqn:Hbga; [done|].
  rewrite !(contains_tail_false _ "BGA" u Hbga). cbn [orb].
  destruct (Str.contains "DIP" u) eqn:Hdip; [done|].
  rewrite (contains_tail_false _ "DIP" u Hdip). cbn [orb].
  destruct (Str.contains "SOIC" u) eqn:Hsoic; [done|]. cbn [orb].
  destruct (Str.contains "SOP" u) eqn:Hsop; [done|].
  rewrite (contains_tail_false "S" "SOP" u Hsop).
  rewrite (contains_tail_false "T" "SSOP" u (contains_tail_false "S" "SOP" u Hsop)).
  cbn [orb].
  destruct (Str.contains "QFP" u) eqn:Hqfp; [done|].
  rewrite !(contains_tail_false _ "QFP" u Hqfp). cbn [orb].
  by destruct (existsb _ smd_sizes).
Qed.

(** ** Enhancing a record, further *)


Lemma defaults_for_other (category : string) (d : gmap string string) (k : string) :
  defaults_for category d → k ∉ default_keys → d !! k = None.
Proof.
  intros [Hdom _] Hk. apply not_elem_of_dom. rewrite Hdom.
  by rewrite elem_of_list_to_set.
Qed.

Lemma defaults_for_key (category : string) (d : gmap string string) (k : string) :
  defaults_for category d → k ∈ default_keys → is_Some (d !! k).
Proof.
  intros [Hdom _] Hk. apply elem_of_dom. rewrite Hdom.
  by rewrite elem_of_list_to_set.
Qed.

Lemma filled_in_again (d : gmap string string) (row row' : gmap string value)
    (k : string) :
  row' !! k = filled_in d row k → filled_in d row' k = row' !! k.
Proof.
  unfold filled_in. destruct (d !! k) as [x|]; [|done]. intros Hk.
  unfold get at 1. destruct (empty_field (get row k)) eqn:He.
  - rewrite Hk. simpl. by destruct (negb _).
  - rewrite Hk. fold (get row k). by rewrite He.
Qed.

(** X12. On a record whose fields are text, [enhance_component_data]
    changes no field other than 品名, 部品型番 and 実装/検査, leaves these
    three present, and is idempotent: enhancing its own result gives that
    result again. *)
Theorem enhance_component_data_idempotent (row_data : gmap string value) :
  text_fields row_data →
  ∃ row', enhance_component_data row_data = Ok row'
    ∧ (∀ key, key ∉ default_keys → row' !! key = row_data !! key)
    ∧ (∀ key, key ∈ default_keys → is_Some (row' !! key))
    ∧ enhance_component_data row' = Ok row'.
Proof.
  intros Htext.
  destruct (enhance_with_spec detect_package_type row_data Htext)
    as (part & ref & d & row' & Hpart & Href & Hd & Hfor & Hrow' & Hk).
  assert (Hother : ∀ key, key ∉ default_keys → row' !! key = row_data !! key).
  { intros key Hkey. rewrite Hk. unfold filled_in.
    by rewrite (defaults_for_other _ _ _ Hfor Hkey). }
  assert (Hget : ∀ key, key ∉ default_keys → get row' key = get row_data key).
  { intros key Hkey. unfold get. by rewrite Hother. }
  assert (Htext' : text_fields row').
  { unfold text_fields. rewrite forallb_forall. intros key Hkey.
    apply list_elem_of_In in Hkey.
    destruct (text_fields_get row_data key Htext Hkey) as [s Hs].
    unfold get. rewrite Hk. unfold filled_in.
    destruct (d !! key); [|fold (get row_data key); by rewrite Hs].
    destruct (empty_field _); [done|]. fold (get row_data key). by rewrite Hs. }
  exists row'. repeat split; try done.
  - intros key Hkey. destruct (defaults_for_key _ _ _ Hfor Hkey) as [x Hx].
    rewrite Hk. unfold filled_in. rewrite Hx.
    destruct (empty_field _) eqn:He; [done|].
    destruct (row_data !! key) as [v|] eqn:Hv; [done|].
    unfold get in He. by rewrite Hv in He.
  - destruct (enhance_with_spec detect_package_type row' Htext')
      as (part' & ref' & d' & row'' & Hpart' & Href' & Hd' & _ & Hrow'' & Hk').
    rewrite Hget in Hpart', Href', Hd' by not_in_list.
    rewrite Hpart in Hpart'. rewrite Href in Href'.
    injection Hpart' as <-. injection Href' as <-.
    rewrite Hd in Hd'. injection Hd' as <-.
    unfold enhance_component_data. rewrite Hrow''. f_equal.
    apply map_eq. intros key. rewrite Hk'.
    by apply (filled_in_again d row_data).
Qed.

Lemma enhance_component_data_idempotent_witness :
  ∃ row', enhance_component_data
            (list_to_map [("電子部品型番", VStr "RK73B2ATTD1002F"); ("No", VInt 1)])
          = Ok row'
    ∧ row' !! "No" = Some (VInt 1)
    ∧ enhance_component_data row' = Ok row'.
Proof.
  destruct (enhance_component_data_idempotent
              (list_to_map [("電子部品型番", VStr "RK73B2ATTD1002F"); ("No", VInt 1)]))
    as (row' & Hrow' & Hother & _ & Hagain); [reflexivity|].
  exists row'. repeat split; [exact Hrow'| |exact Hagain].
  rewrite Hother; [reflexivity|not_in_list].
Defined.

(** ** The template mapper, further *)

Lemma enhance_other_keys (row : gmap string value) :
  text_fields row →
  ∃ row', enhance_component_data row = Ok row'
    ∧ ∀ key, key ∉ default_keys → row' !! key = row !! key.
Proof.
  intros Htext.
  destruct (enhance_with_spec detect_package_type row Htext)
    as (part & ref & d & row' & _ & _ & _ & Hfor & Hrow' & Hk).
  exists row'. split; [done|]. intros key Hkey. rewrite Hk. unfold filled_in.
  by rewrite (defaults_for_other _ _ _ Hfor Hkey).
Qed.

Lemma template_entry_record (df : DataFrame) (manufacturers : gmap Z string)
    (panel_count idx row_idx : Z) (part_number : string) (r : gmap string value) :
  template_entry df manufacturers panel_count idx row_idx part_number = Ok r →
  ∃ refs, extract_reference_designators df row_idx = Ok refs
    ∧ r !! "No" = Some (VInt idx)
    ∧ r !! "電子部品型番" = Some (VStr part_number)
    ∧ r !! "配置記号" = Some (VStr refs)
    ∧ r !! "メーカー" = Some (VStr (default "" (manufacturers !! row_idx))).
Proof.
  intros (refs & q & Hrefs & _ & Hr)%template_entry_inv.
  set (row0 := template_row _ _ _ _ _ _) in Hr.
  destruct (enhance_other_keys row0) as (r' & Hr' & Hother);
    [apply template_row_text|].
  rewrite Hr in Hr'. injection Hr' as <-.
  exists refs. split; [done|].
  repeat split; (rewrite Hother; [reflexivity|not_in_list]).
Qed.

Lemma template_rows_records (df : DataFrame) (manufacturers : gmap Z string)
    (panel_count : Z) (part_numbers : list (Z * string)) :
  ∀ idx records,
    template_rows df manufacturers panel_count idx part_numbers = Ok records →
    length records = length part_numbers
    ∧ ∀ k i part, part_numbers !! k = Some (i, part) →
        ∃ r refs, records !! k = Some r
          ∧ extract_reference_designators df i = Ok refs
          ∧ r !! "No" = Some (VInt (idx + Z.of_nat k))
          ∧ r !! "電子部品型番" = Some (VStr part)
          ∧ r !! "配置記号" = Some (VStr refs)
          ∧ r !! "メーカー" = Some (VStr (default "" (manufacturers !! i))).
Proof.
  induction part_numbers as [|[i part] rest IH]; intros idx records.
  - intros [= <-]. split; [done|]. intros k i part Hk. by rewrite lookup_nil in Hk.
  - cbn [template_rows].
    destruct (template_entry df manufacturers panel_count idx i part)
      as [r|e] eqn:Hr; [|done].
    cbv beta iota delta [mbind result_bind].
    destruct (template_rows df manufacturers panel_count (idx + 1) rest)
      as [rs|e] eqn:Hrs; [|done].
    intros [= <-]. destruct (IH _ _ Hrs) as [Hlen Hrec].
    split; [simpl; by rewrite Hlen|].
    intros k i' part' Hk. destruct k as [|k].
    + injection Hk as <- <-.
      destruct (template_entry_record _ _ _ _ _ _ _ Hr) as (refs & Hx & HNo & Hrest).
      exists r, refs. rewrite Z.add_0_r. by repeat split; try apply Hrest.
    + destruct (Hrec k i' part' Hk) as (r' & refs' & Hr' & Hx & HNo' & Hrest).
      exists r', refs'. repeat split; try done; try apply Hrest.
      rewrite HNo'. do 2 f_equal. lia.
Qed.

(** X13. Whenever the mapper returns, it returns one record per reported
    part number, in the same order; the record of the k-th pair carries the
    sequence number k + 1, the part number of the pair, the designators of
    the row that [df.iloc] finds at the pair's index label taken as a
    position, and the manufacturer detected under that label (the empty
    string when none was).  It does return for a panel count other than 0
    on a sized frame whose labels are positions. *)
Theorem map_to_template_records (df : DataFrame) (panel_count : Z) :
  (∀ records, map_to_template df panel_count = Ok records →
     length records = length (detect_part_numbers df)
     ∧ ∀ k i part, detect_part_numbers df !! k = Some (i, part) →
         ∃ r, records !! k = Some r ∧ record_of df k i part r)
  ∧ (panel_count ≠ 0 → positional df = true → sized df = true →
     ∃ records, map_to_template df panel_count = Ok records).
Proof.
  split.
  - intros records Hrecords.
    destruct (template_rows_records _ _ _ _ _ _ Hrecords) as [Hlen Hrec].
    split; [done|].
    intros k i part Hk.
    destruct (Hrec k i part Hk) as (r & refs & Hr & Hx & HNo & Hrest).
    exists r. split; [done|]. exists refs. repeat split; try done; try apply Hrest.
    rewrite HNo. do 2 f_equal. lia.
  - intros Hp Hpos Hsized.
    apply template_rows_ok; [done..|by apply detect_part_numbers_positional].
Qed.

Lemma map_to_template_records_witness :
  ∃ records,
    map_to_template [(0, ["RK73B2ATTD1002F"; "R1,R5"; "KOA"])] (-3) = Ok records.
Proof.
  apply (map_to_template_records [(0, ["RK73B2ATTD1002F"; "R1,R5"; "KOA"])] (-3));
    [lia|reflexivity|reflexivity].
Defined.

Lemma iloc_raise (df : DataFrame) (i : Z) (e : exn) :
  iloc df i = Raise e → e = IndexError ∧ position_of df i = false.
Proof.
  intros H. destruct (position_of df i) eqn:Hpos.
  - destruct (iloc_position df i Hpos) as [row Hrow]. congruence.
  - rewrite (iloc_outside df i Hpos) in H. by injection H as <-.
Qed.

Lemma calculate_quantity_raise (ref_count panel_count : Z) (e : exn) :
  calculate_quantity ref_count None panel_count = Raise e →
  0 < ref_count
  ∧ (e = ZeroDivisionError ∧ panel_count = 0
     ∨ e = OverflowError ∧ 2 ^ 1023 ≤ ref_count).
Proof.
  unfold calculate_quantity. destruct (Z.ltb_spec 0 ref_count) as [Hr|]; [|done].
  intros He. split; [done|].
  destruct (decide (panel_count = 0)) as [->|Hp].
  - left. unfold int_div in He. simpl in He. by injection He as <-.
  - right. destruct (int_div_cases ref_count panel_count Hp)
      as [(m & _ & Hm)|[Hm Hbig]]; rewrite Hm in He; [done|].
    injection He as <-. split; [done|lia].
Qed.

Lemma count_references_empty (refs : string) :
  0 < count_references refs → refs ≠ "".
Proof. intros H ->. vm_compute in H. discriminate H. Qed.

(** Why a turn of the loop raises: the label is not a position; or the
    row has designators and the panel count is 0; or the row has 2^1023
    designators or more. *)
Lemma template_entry_raise (df : DataFrame) (manufacturers : gmap Z string)
    (panel_count idx row_idx : Z) (part_number : string) (e : exn) :
  template_entry df manufacturers panel_count idx row_idx part_number = Raise e →
  e = IndexError ∧ position_of df row_idx = false
  ∨ ∃ refs, extract_reference_designators df row_idx = Ok refs
      ∧ (e = ZeroDivisionError ∧ panel_count = 0 ∧ refs ≠ ""
         ∨ e = OverflowError ∧ 2 ^ 1023 ≤ count_references refs).
Proof.
  unfold template_entry, extract_reference_designators.
  destruct (iloc df row_idx) as [row|e'] eqn:Hrow.
  - cbv beta iota delta [mbind result_bind].
    set (refs := format_refs (best_ref_match row)).
    destruct (calculate_quantity (count_references refs) None panel_count)
      as [q|e'] eqn:Hq.
    + set (row0 := template_row _ _ _ _ _ _).
      destruct (enhance_with_frame detect_package_type row0) as (r & Hr & _);
        [apply template_row_text|].
      unfold enhance_component_data. by rewrite Hr.
    + intros [= <-]. right. exists refs. split; [done|].
      apply calculate_quantity_raise in Hq as [Hpos [[-> ->]|[-> Hbig]]].
      * left. repeat split. by apply count_references_empty.
      * by right.
  - intros [= <-]. left. by apply iloc_raise.
Qed.

Lemma template_rows_raise (df : DataFrame) (manufacturers : gmap Z string)
    (panel_count : Z) (part_numbers : list (Z * string)) (e : exn) :
  ∀ idx, template_rows df manufacturers panel_count idx part_numbers = Raise e →
    ∃ idx' i part, (i, part) ∈ part_numbers
      ∧ template_entry df manufacturers panel_count idx' i part = Raise e.
Proof.
  induction part_numbers as [|[i part] rest IH]; intros idx; [done|].
  cbn [template_rows].
  destruct (template_entry df manufacturers panel_count idx i part)
    as [r|e'] eqn:Hr.
  - cbv beta iota delta [mbind result_bind].
    destruct (template_rows df manufacturers panel_count (idx + 1) rest)
      as [rs|e'] eqn:Hrs; [done|].
    intros [= <-]. destruct (IH _ Hrs) as (idx' & i' & part' & Hin & H).
    exists idx', i', part'. split; [by right|done].
  - intros [= <-]. exists idx, i, part. split; [left|done].
Qed.

(** A pair whose turn raises makes the whole loop raise. *)
Lemma template_rows_fails (df : DataFrame) (manufacturers : gmap Z string)
    (panel_count : Z) (part_numbers : list (Z * string)) (i : Z) (part : string) :
  (i, part) ∈ part_numbers →
  (∀ idx, ∃ e, template_entry df manufacturers panel_count idx i part = Raise e) →
  ∀ idx, ∃ e, template_rows df manufacturers panel_count idx part_numbers = Raise e.
Proof.
  intros Hin Hfail. induction part_numbers as [|[i' part'] rest IH]; intros idx.
  - by apply elem_of_nil in Hin.
  - cbn [template_rows]. apply elem_of_cons in Hin as [[= <- <-]|Hin].
    + destruct (Hfail idx) as [e ->]. by exists e.
    + destruct (template_entry df manufacturers panel_count idx i' part')
        as [r|e]; [|by exists e].
      cbv beta iota delta [mbind result_bind].
      destruct (IH Hin (idx + 1)) as [e ->]. by exists e.
Qed.

Lemma template_entry_zero (df : DataFrame) (manufacturers : gmap Z string)
    (idx row_idx : Z) (part_number refs : string) :
  extract_reference_designators df row_idx = Ok refs →
  if decide (refs = "")
  then ∃ r, template_entry df manufacturers 0 idx row_idx part_number = Ok r
  else template_entry df manufacturers 0 idx row_idx part_number
         = Raise ZeroDivisionError.
Proof.
  intros Hrefs. destruct (extract_inv df row_idx refs Hrefs) as (row & Hrow & ->).
  destruct (format_refs_count (best_ref_match row)) as (_ & Hpos & Hzero).
  set (refs := format_refs (best_ref_match row)) in *.
  unfold template_entry. rewrite Hrefs. cbv beta iota delta [mbind result_bind].
  unfold calculate_quantity.
  case_decide as He.
  - rewrite (Hzero He). cbn [Z.ltb Z.compare].
    set (row0 := template_row _ _ _ _ _ _).
    destruct (enhance_with_frame detect_package_type row0) as (r & Hr & _);
      [apply template_row_text|].
    by exists r.
  - specialize (Hpos He).
    destruct (Z.ltb_spec 0 (count_references refs)); [done|lia].
Qed.

Lemma template_rows_zero (df : DataFrame) (manufacturers : gmap Z string)
    (part_numbers : list (Z * string)) :
  Forall (λ p, position_of df p.1 = true) part_numbers →
  ∀ idx,
    match template_rows df manufacturers 0 idx part_numbers with
    | Ok _ => ∀ i part refs, (i, part) ∈ part_numbers →
                extract_reference_designators df i = Ok refs → refs = ""
    | Raise e => e = ZeroDivisionError
                 ∧ ∃ i part refs, (i, part) ∈ part_numbers
                     ∧ extract_reference_designators df i = Ok refs ∧ refs ≠ ""
    end.
Proof.
  intros Hall. induction Hall as [|[i part] rest Hi _ IH]; intros idx.
  - simpl. intros i part refs Hin. by apply elem_of_nil in Hin.
  - destruct (iloc_position df i Hi) as [row Hrow].
    pose proof (extract_iloc df i row Hrow) as Hrefs.
    set (refs := format_refs (best_ref_match row)) in *.
    pose proof (template_entry_zero df manufacturers idx i part refs Hrefs) as He.
    cbn [template_rows]. case_decide as Hempty.
    + destruct He as [r ->]. cbv beta iota delta [mbind result_bind].
      specialize (IH (idx + 1)).
      destruct (template_rows df manufacturers 0 (idx + 1) rest) as [rs|e].
      * intros i' part' refs' [[= -> ->]|Hin]%elem_of_cons Hx; [congruence|eauto].
      * destruct IH as (-> & i' & part' & refs' & Hin & Hx & Hne).
        split; [done|]. exists i', part', refs'. repeat split; [by right|done..].
    + rewrite He. cbv beta iota delta [mbind result_bind].
      split; [done|]. exists i, part, refs. repeat split; [by left|done..].
Qed.

(** X14. The exceptions of the mapper.  It raises [IndexError] only when a
    reported index label is not a position of the frame, and any such label
    makes it raise; [ZeroDivisionError] only for a panel count of 0 when
    some reported row has a designator; [OverflowError] only on a frame
    that is not sized; and nothing else.  On a sized frame whose labels are
    positions it raises exactly for a panel count of 0 with a designator in
    a reported row, and returns its records in every other case. *)
Theorem map_to_template_errors (df : DataFrame) (panel_count : Z) :
  (∀ e, map_to_template df panel_count = Raise e →
     e = IndexError
       ∧ (∃ i part, (i, part) ∈ detect_part_numbers df ∧ position_of df i = false)
     ∨ e = ZeroDivisionError ∧ panel_count = 0 ∧ has_designators df
     ∨ e = OverflowError ∧ sized df = false)
  ∧ (∀ i part, (i, part) ∈ detect_part_numbers df → position_of df i = false →
     ∃ e, map_to_template df panel_count = Raise e)
  ∧ (positional df = true → sized df = true →
     match map_to_template df panel_count with
     | Ok _ => panel_count ≠ 0 ∨ ¬ has_designators df
     | Raise e => e = ZeroDivisionError ∧ panel_count = 0 ∧ has_designators df
     end).
Proof.
  unfold map_to_template. split; [|split].
  - intros e (idx & i & part & Hin & He)%template_rows_raise.
    apply template_entry_raise in He
      as [[-> Hpos]|(refs & Hrefs & [(-> & -> & Hne)|[-> Hbig]])].
    + left. split; [done|]. by exists i, part.
    + right; left. repeat split. by exists i, part, refs.
    + right; right. split; [done|].
      destruct (sized df) eqn:Hsized; [exfalso|done].
      destruct (extract_inv df i refs Hrefs) as (row & Hrow & ->).
      destruct (iloc_row df i row Hrow) as [_ [idx' Hrow_in]].
      unfold sized in Hsized. rewrite forallb_forall in Hsized.
      apply list_elem_of_In in Hrow_in.
      pose proof (count_references_sized row (Hsized _ Hrow_in)) as Hcount.
      assert (2 ^ 63 < 2 ^ 1023) by (apply Z.pow_lt_mono_r; lia).
      unfold sys_maxsize in Hcount. lia.
  - intros i part Hin Hpos. apply (template_rows_fails _ _ _ _ i part Hin).
    intros idx. unfold template_entry, extract_reference_designators.
    rewrite (iloc_outside df i Hpos). by exists IndexError.
  - intros Hpos Hsized. destruct (decide (panel_count = 0)) as [->|Hp].
    + pose proof (template_rows_zero df (detect_manufacturers df)
                    (detect_part_numbers df)
                    (detect_part_numbers_positional df Hpos) 1) as H.
      destruct (template_rows df (detect_manufacturers df) 0 1 (detect_part_numbers df))
        as [rs|e].
      * right. intros (i & part & refs & Hin & Hx & Hne). eauto.
      * destruct H as [-> H]. by repeat split.
    + destruct (template_rows_ok df (detect_manufacturers df) panel_count
                  (detect_part_numbers df) Hp Hsized
                  (detect_part_numbers_positional df Hpos) 1) as [records ->].
      by left.
Qed.

Lemma map_to_template_errors_witness :
  ∃ e, map_to_template
         [(0, ["RK73B2ATTD1002F"; "R1,R5"; "KOA"]); (2, ["GRM188"; "C3"])] 8
       = Raise e.
Proof.
  refine (proj1 (proj2 (map_to_template_errors
            [(0, ["RK73B2ATTD1002F"; "R1,R5"; "KOA"]); (2, ["GRM188"; "C3"])] 8))
            2 "GRM188" _ _).
  - vm_compute. right. left.
  - reflexivity.
Defined.

(** ** Quantities, further *)

(** X15. For a positive reference count below 2^53 and a panel count of
    1 or more the per-unit quantity times the panel count never exceeds
    the larger of the two and falls short of the reference count by less
    than one panel count; it equals the reference count when the panel
    count divides it, in particular for a panel count of 1. *)
Theorem calculate_quantity_rounding (ref_count panel_count : Z) :
  0 < ref_count < 2 ^ 53 → 1 ≤ panel_count →
  ∃ per_unit, calculate_quantity ref_count None panel_count = Ok per_unit
    ∧ per_unit * panel_count ≤ Z.max ref_count panel_count
    ∧ ref_count - panel_count < per_unit * panel_count
    ∧ ((panel_count | ref_count) → per_unit * panel_count = ref_count)
    ∧ (panel_count = 1 → per_unit = ref_count).
Proof.
  intros [Hr Hbound] Hp. unfold calculate_quantity.
  destruct (Z.ltb_spec 0 ref_count); [|lia].
  rewrite int_div_pos by lia. cbv beta iota delta [mbind result_bind].
  clear Hbound.
  eexists; split; [done|].
  pose proof (Z.div_mod ref_count panel_count ltac:(lia)) as Hdm.
  pose proof (Z.mod_pos_bound ref_count panel_count ltac:(lia)) as Hmod.
  pose proof (Z.div_pos ref_count panel_count ltac:(lia) ltac:(lia)) as Hdiv.
  assert (Hdvd : (panel_count | ref_count) → ref_count `mod` panel_count = 0).
  { intros Hd. by apply Z.mod_divide in Hd; [|lia]. }
  assert (H1 : panel_count = 1 → ref_count `div` panel_count = ref_count).
  { intros ->. apply Z.div_1_r. }
  revert Hdm Hmod Hdiv Hdvd H1.
  generalize (ref_count `div` panel_count) as d.
  generalize (ref_count `mod` panel_count) as m.
  intros m d Hdm Hmod Hdiv Hdvd H1.
  repeat split.
  - clear Hdvd H1. nia.
  - clear Hdvd H1. nia.
  - intros Hd. specialize (Hdvd Hd). clear H1. assert (1 ≤ d) by nia. nia.
  - intros Hp1. specialize (H1 Hp1). lia.
Qed.

Lemma calculate_quantity_rounding_witness :
  ∃ per_unit, calculate_quantity 19 None 8 = Ok per_unit
    ∧ per_unit * 8 ≤ Z.max 19 8
    ∧ 19 - 8 < per_unit * 8
    ∧ ((8 | 19) → per_unit * 8 = 19)
    ∧ (8 = 1 → per_unit = 19).
Proof. apply (calculate_quantity_rounding 19 8); [split; [lia|reflexivity]|lia]. Defined.

(** ** Classifying by the extracted designators *)

Lemma search_from_sound (ic : bool) (r : regex) (s : string) :
  ∀ i, search_from ic r i s = true →
    ∃ pre w post, s = pre +:+ w +:+ post
      ∧ matches ic r (i + String.length pre)%nat w.
Proof.
  induction s as [|c s IH]; intros i H; simpl in H.
  - destruct (match_at ic r false i "") as [j|] eqn:Hm; [|done].
    apply match_at_sound in Hm as (w & t & Hs & Hw & _).
    exists "", w, t. simpl. by rewrite Nat.add_0_r.
  - destruct (match_at ic r false i (String c s)) as [j|] eqn:Hm.
    + apply match_at_sound in Hm as (w & t & Hs & Hw & _).
      exists "", w, t. simpl. by rewrite Nat.add_0_r.
    + apply IH in H as (pre & w & post & -> & Hw).
      exists (String c pre), w, post. split; [done|].
      simpl. by rewrite Nat.add_succ_r.
Qed.

Lemma lead_0 (r : regex) : lead r 0 = Some ([], 0%nat).
Proof. by destruct r. Qed.

(** The first characters of a match are in the classes [lead] gives. *)
Lemma lead_sound (ic : bool) (r : regex) (i : nat) (w : string) :
  matches ic r i w →
  ∀ n l m, lead r n = Some (l, m) →
    ∃ cs rest, w = string_of_list_ascii cs +:+ rest
      ∧ Forall2 (λ cl c, charset_mem ic cl c = true) l cs
      ∧ (0 < m → rest = "")%nat.
Proof.
  induction 1 as [i|cs c i Hc| |r1 r2 i w1 w2 H1 IH1 H2 IH2| | | |];
    intros n l m Hl;
    (destruct n as [|n];
     [simpl in Hl; injection Hl as <- <-; eexists [], _;
      (split; [reflexivity|split; [constructor|lia]])|]);
    try discriminate Hl.
  - injection Hl as <- <-. by exists [], "".
  - simpl in Hl. injection Hl as <- <-.
    exists [c], "". repeat split. by repeat constructor.
  - injection Hl as <- <-. by exists [], "".
  - cbn [lead] in Hl.
    destruct (lead r1 (S n)) as [[l1 m1]|] eqn:Hl1; [|done].
    destruct (lead r2 m1) as [[l2 m2]|] eqn:Hl2; [|done].
    injection Hl as <- <-.
    destruct (IH1 _ _ _ Hl1) as (cs1 & rest1 & -> & Hcs1 & Hrest1).
    destruct (IH2 _ _ _ Hl2) as (cs2 & rest2 & -> & Hcs2 & Hrest2).
    destruct m1 as [|m1].
    + rewrite lead_0 in Hl2. injection Hl2 as <- <-.
      exists cs1, (rest1 +:+ string_of_list_ascii cs2 +:+ rest2).
      rewrite app_nil_r, str_app_assoc. repeat split; [done|lia].
    + rewrite (Hrest1 ltac:(lia)), str_app_nil_r.
      exists (cs1 ++ cs2), rest2. repeat split; [|by apply Forall2_app|done].
      rewrite <- str_app_assoc. f_equal.
      clear. induction cs1 as [|c cs1 IH]; [done|]. simpl.
      by rewrite str_app_cons, IH.
Qed.

Lemma canon_suffix (pre s : string) : canon (pre +:+ s) = true → canon s = true.
Proof.
  induction pre as [|c pre IH]; [done|]. rewrite str_app_cons. cbn [canon].
  rewrite !andb_true_iff. intros [_ H]. auto.
Qed.

Lemma letter_not_digit (c : ascii) : is_letter c = true → Str.is_digit c = false.
Proof. each_char c; vm_compute; done. Qed.

(** A pattern of the second kind is found in no canonical string. *)
Lemma never_in_canon_search (r : regex) (s : string) :
  never_in_canon r = true → canon s = true → search true r s = false.
Proof.
  intros Hn Hs. destruct (search true r s) eqn:Hsearch; [|done].
  apply search_from_sound in Hsearch as (pre & w & post & -> & Hw).
  apply canon_suffix in Hs. unfold never_in_canon in Hn.
  destruct (lead r 2) as [ [ [ | a [ | b [ | c l ] ] ] m ] | ] eqn:Hl; try done.
  destruct (lead_sound _ _ _ _ Hw _ _ _ Hl) as (cs & rest & -> & Hcs & _).
  apply Forall2_cons_inv_l in Hcs as (x & cs' & Hx & Hcs & ->).
  apply Forall2_cons_inv_l in Hcs as (y & cs'' & Hy & Hcs & ->).
  apply Forall2_nil_inv_l in Hcs as ->.
  simpl in Hs. rewrite !andb_true_iff in Hs. destruct Hs as [[Hax Hxy] _].
  apply orb_true_iff in Hn as [[Ha Hb]%andb_true_iff|Ha].
  - rewrite (class_within_mem _ _ _ _ Ha Hx) in Hxy. simpl in Hxy.
    pose proof (letter_not_digit _ (class_within_mem _ _ _ _ Hb Hy)). congruence.
  - pose proof (class_within_mem _ _ _ _ Ha Hx) as Hna. simpl in Hna.
    by rewrite Hax in Hna.
Qed.

Lemma star_some {A : Type} (ic : bool) (r : regex) (i : nat) (s : string)
    (k : nat → string → option A) :
  (∀ j t, is_Some (k j t)) → is_Some (re_match ic (Star r) i s k).
Proof.
  intros Hk. simpl. destruct (String.length s) as [|fuel]; [apply Hk|].
  match goal with
  | |- is_Some (match ?m with _ => _ end) => destruct m
  end; [by eexists|apply Hk].
Qed.

Lemma re_match_seq {A : Type} (ic : bool) (r1 r2 : regex) (i : nat) (s : string)
    (k : nat → string → option A) :
  re_match ic (Seq r1 r2) i s k = re_match ic r1 i s (λ j t, re_match ic r2 j t k).
Proof. reflexivity. Qed.

Lemma re_match_bol {A : Type} (ic : bool) (s : string) (k : nat → string → option A) :
  re_match ic Bol 0 s k = k 0%nat s.
Proof. reflexivity. Qed.

Lemma re_match_chr {A : Type} (ic : bool) (cs : charset) (c : ascii) (i : nat)
    (s : string) (k : nat → string → option A) :
  charset_mem ic cs c = true → re_match ic (Chr cs) i (String c s) k = k (S i) s.
Proof. intros H. cbn [re_match]. by rewrite H. Qed.

Lemma upper_letter_char (l c : ascii) :
  Str.is_upper l = true →
  charset_mem true (CChar l) c = Ascii.eqb (Str.upper_char c) l.
Proof.
  intros Hl. unfold charset_mem, charset_test. cbn [andb].
  destruct (Ascii.eqb_spec c l) as [->|Hne].
  - simpl. revert Hl. each_char l; vm_compute; done.
  - destruct (Ascii.eqb_spec (Str.upper_char c) l) as [<-|Hu].
    + by rewrite orb_true_r.
    + rewrite orb_false_r. simpl. destruct (Ascii.eqb_spec (Str.lower_char c) l) as [<-|]; [|done].
      exfalso. revert Hl. clear. each_char c; vm_compute; done.
Qed.

(** A pattern [^L\d+] is found in a string that begins with a character and
    a digit exactly when the character is the letter, in either case. *)
Lemma anchored_letter_search (r : regex) (l c d : ascii) (rest : string) :
  anchored_letter r = Some l → Str.is_upper l = true → Str.is_digit d = true →
  search true r (String c (String d rest)) = Ascii.eqb (Str.upper_char c) l.
Proof.
  intros Hr Hl Hd.
  assert (r = Seq Bol (Seq (Chr (CChar l)) (Seq (Chr CDigit) (Star (Chr CDigit)))))
    as ->.
  { unfold anchored_letter in Hr.
    repeat match type of Hr with
           | match ?x with _ => _ end = _ => destruct x; try discriminate Hr
           end.
    by injection Hr as ->. }
  clear Hr. rewrite <- (upper_letter_char l c Hl).
  destruct (charset_mem true (CChar l) c) eqn:Hc.
  - assert (charset_mem true CDigit d = true) as Hd'
      by (unfold charset_mem; simpl; by rewrite Hd).
    unfold search. cbn [search_from]. unfold match_at.
    rewrite re_match_seq, re_match_bol, re_match_seq, (re_match_chr _ _ _ _ _ _ Hc),
      re_match_seq, (re_match_chr _ _ _ _ _ _ Hd').
    destruct (star_some true (Chr CDigit) 2 rest
                (λ j _, if false && (j =? 0)%nat then None else Some j)) as [j ->];
      [by eexists|done].
  - destruct (search true _ _) eqn:Hsearch; [|done].
    apply search_from_sound in Hsearch as (pre & w & post & Hs & Hw).
    apply matches_seq_inv in Hw as (w1 & w2 & -> & Hbol & Hw).
    inversion Hbol as [| |Hi| | | | |]; subst.
    destruct pre; [|done]. simpl in Hw.
    apply matches_seq_inv in Hw as (w3 & w4 & -> & Hchr & _).
    apply matches_chr_inv in Hchr as (c' & -> & Hc'). injection Hs as <- _.
    congruence.
Qed.

Lemma classifier_patterns_ok :
  forallb (λ entry, forallb pattern_kind_ok (info_patterns (snd entry)))
          component_patterns = true.
Proof. vm_compute. reflexivity. Qed.

(** On a canonical string that begins with a letter and a digit, the
    search of the classifier depends on the letter only. *)
Lemma first_match_canon (c d : ascii) (rest : string) :
  Str.is_digit d = true → canon (String c (String d rest)) = true →
  first_match (String c (String d rest))
  = find (λ entry, existsb (found_by_letter c) (info_patterns (snd entry)))
         component_patterns.
Proof.
  intros Hd Hs. unfold first_match.
  pose proof classifier_patterns_ok as Hok.
  induction component_patterns as [|entry l IH]; [done|].
  cbn [forallb] in Hok. apply andb_true_iff in Hok as [He Hl].
  cbn [find]. rewrite (IH Hl).
  replace (existsb (λ pattern, search true pattern (String c (String d rest)))
             (info_patterns entry.2))
    with (existsb (found_by_letter c) (info_patterns entry.2)); [done|].
  clear IH Hl. induction (info_patterns entry.2) as [|p ps IHp]; [done|].
  cbn [forallb] in He. apply andb_true_iff in He as [Hp Hps].
  cbn [existsb]. rewrite (IHp Hps). f_equal.
  unfold pattern_kind_ok, found_by_letter in *.
  destruct (anchored_letter p) as [l0|] eqn:Ha.
  - by rewrite (anchored_letter_search p l0 c d rest Ha Hp Hd).
  - by rewrite (never_in_canon_search p _ Hp Hs).
Qed.

Lemma canon_digits (ds rest : string) :
  all_digits ds = true → canon rest = true → canon (ds +:+ rest) = true.
Proof.
  induction ds as [|d ds IH]; [done|]. rewrite str_app_cons. cbn [all_digits canon].
  rewrite !andb_true_iff. intros [Hd Hds] Hrest. repeat split; [| |by apply IH].
  - unfold allowed. by rewrite Hd, orb_true_r.
  - assert (is_letter d = false) as ->; [|done].
    revert Hd. each_char d; vm_compute; done.
Qed.

Lemma canon_designator (t rest : string) :
  designator t = true → canon rest = true →
  ∃ c d ds, t = String c (String d ds) ∧ Str.is_digit d = true
    ∧ mem_string (Str.upper_char c) "RCLUDQJXYFT" = true
    ∧ canon (t +:+ rest) = true.
Proof.
  destruct t as [|c [|d ds]]; [done| |].
  - unfold designator. by rewrite andb_false_r.
  - unfold designator. cbn [Str.nonempty all_digits]. rewrite !andb_true_iff.
    intros [[Hc _] [Hd Hds]] Hrest. exists c, d, ds. repeat split; [done..|].
    rewrite str_app_cons. cbn [canon]. rewrite str_app_cons.
    rewrite Hd, orb_true_r, andb_true_r.
    pose proof (canon_digits (String d ds) rest) as Hcd.
    rewrite str_app_cons in Hcd. rewrite Hcd; [|simpl; by rewrite Hd|done].
    rewrite andb_true_r. revert Hc. clear. each_char c; vm_compute; done.
Qed.

(** A joined list of designators is canonical and begins with the letter
    and a digit of its first designator. *)
Lemma canon_join (tokens : list string) :
  Forall (λ t, designator t = true) tokens →
  canon (Str.join "," tokens) = true
  ∧ (tokens ≠ [] →
     ∃ c d rest, Str.join "," tokens = String c (String d rest)
       ∧ Str.is_digit d = true
       ∧ mem_string (Str.upper_char c) "RCLUDQJXYFT" = true).
Proof.
  unfold Str.join. induction 1 as [|t ts Ht _ [IH _]]; [done|].
  cbn [String.concat]. destruct ts as [|t' ts].
  - destruct (canon_designator t "" Ht eq_refl) as (c & d & ds & -> & Hd & Hc & Hcan).
    rewrite str_app_nil_r in Hcan. split; [done|]. intros _. by exists c, d, ds.
  - destruct (canon_designator t ("," +:+ String.concat "," (t' :: ts)) Ht)
      as (c & d & ds & -> & Hd & Hc & Hcan); [done|].
    split; [done|]. intros _. rewrite !str_app_cons. by eexists c, d, _.
Qed.

Lemma letter_category_table :
  map letter_category (list_ascii_of_string "RCLUDQJXYFT")
  = [Some "抵抗器"; Some "コンデンサ"; Some "インダクタ"; Some "IC";
     Some "ダイオード"; Some "トランジスタ"; Some "コネクタ";
     Some "水晶振動子"; Some "水晶振動子"; None; Some "トランジスタ"].
Proof. vm_compute. reflexivity. Qed.

(** X16. The category of a record follows the first designator the
    extractor returns: when the extracted string is not empty,
    [get_component_category] gives it the category of its first letter
    (R resistor, C capacitor, L inductor, U IC, D diode, Q and T
    transistor, J connector, X and Y crystal, in either letter case),
    whatever the part number; for the letter F, which no pattern knows,
    the part number alone decides, as it does without designators. *)
Theorem get_component_category_of_extracted (df : DataFrame) (i : Z)
    (refs part_number : string) :
  extract_reference_designators df i = Ok refs → refs ≠ "" →
  ∃ c rest, refs = String c rest
    ∧ mem_string (Str.upper_char c) "RCLUDQJXYFT" = true
    ∧ get_component_category part_number refs
        = default (get_component_category part_number "") (letter_category c)
    ∧ map letter_category (list_ascii_of_string "RCLUDQJXYFT")
        = [Some "抵抗器"; Some "コンデンサ"; Some "インダクタ"; Some "IC";
           Some "ダイオード"; Some "トランジスタ"; Some "コネクタ";
           Some "水晶振動子"; Some "水晶振動子"; None; Some "トランジスタ"].
Proof.
  intros Hx Hne. apply extract_inv in Hx as (row & _ & ->).
  generalize dependent (best_ref_match row). intros best_match Hne.
  assert (Hs : format_refs best_match
               = Str.join "," (designators (format_refs best_match))
               ∧ Forall (λ t, designator t = true)
                   (designators (format_refs best_match))).
  { assert (Htoks : Forall (λ t, designator t = true)
                      (findall true ref_token best_match)).
    { eapply Forall_impl;
        [exact (scattered_Forall _ _ _ (findall_scattered true ref_token best_match))|].
      intros t [j Ht]. by eapply matches_ref_token. }
    unfold format_refs in *.
    destruct best_match as [|b0 best_match]; [by destruct Hne|].
    cbn [Str.nonempty] in *.
    destruct (findall true ref_token (String b0 best_match)) as [|t ts] eqn:Hts;
      [by destruct Hne|].
    unfold designators. by rewrite split_join. }
  destruct Hs as [Hjoin Hall].
  destruct (canon_join _ Hall) as [Hcan Hfirst]. rewrite <- Hjoin in Hcan, Hfirst.
  destruct Hfirst as (c & d & rest & Hs & Hd & Hc); [apply split_nonempty|].
  exists c, (String d rest).
  split; [exact Hs|]. split; [exact Hc|]. split; [|exact letter_category_table].
  rewrite Hs in Hcan |- *. unfold get_component_category at 1.
  cbn [Str.nonempty]. rewrite (first_match_canon c d rest Hd Hcan).
  unfold letter_category.
  destruct (find _ component_patterns) as [[ty info]|]; reflexivity.
Qed.

Lemma get_component_category_of_extracted_witness :
  ∃ c rest, "R1,R5" = String c rest
    ∧ mem_string (Str.upper_char c) "RCLUDQJXYFT" = true
    ∧ get_component_category "CN-12" "R1,R5"
        = default (get_component_category "CN-12" "") (letter_category c)
    ∧ map letter_category (list_ascii_of_string "RCLUDQJXYFT")
        = [Some "抵抗器"; Some "コンデンサ"; Some "インダクタ"; Some "IC";
           Some "ダイオード"; Some "トランジスタ"; Some "コネクタ";
           Some "水晶振動子"; Some "水晶振動子"; None; Some "トランジスタ"].
Proof.
  apply (get_component_category_of_extracted
           [(0, ["RK73B2ATTD1002F"; "R1,R5"; "KOA"])] 0 "R1,R5" "CN-12").
  - vm_compute. reflexivity.
  - discriminate.
Defined.

(** ** Edge cases *)

Lemma designator_has_digit (t : string) :
  designator t = true → str_exists Str.is_digit t = true.
Proof.
  destruct t as [|c [|d ds]]; [done| |].
  - unfold designator. by rewrite andb_false_r.
  - unfold designator. cbn [Str.nonempty all_digits str_exists].
    rewrite !andb_true_iff. intros [_ [-> _]]. by rewrite orb_true_r.
Qed.

(** X17. A row of ASCII text none of whose cells contains a digit yields
    no designators: [extract_reference_designators] returns the empty
    string for it. *)
Theorem extract_reference_designators_needs_digit (df : DataFrame) (i : Z)
    (row : Row) :
  iloc df i = Ok row → ascii_row row = true →
  Forall (λ cell, str_exists Str.is_digit cell = false) row →
  extract_reference_designators df i = Ok "".
Proof.
  intros Hrow _ Hall. rewrite (extract_iloc df i row Hrow). f_equal.
  destruct (format_refs_tokens (best_ref_match row)) as [Hs|Hsc]; [done|].
  destruct (best_ref_match_from_row row)
    as [Hb|(cell & Hcell & pre & post & Hsub)]; simpl in *.
  { by rewrite Hb. }
  exfalso. rewrite Forall_forall in Hall. specialize (Hall cell Hcell).
  assert (Hd : str_exists Str.is_digit (best_ref_match row) = true).
  { inversion Hsc as [s Hnil|pre' m ms s Hm _ Hcons Hbest].
    - symmetry in Hnil. by apply split_nonempty in Hnil.
    - rewrite !str_exists_app, (designator_has_digit m Hm).
      by rewrite orb_true_r. }
  assert (Hd' : str_exists Str.is_digit (Str.strip cell) = true).
  { rewrite Hsub, !str_exists_app, Hd. by rewrite orb_true_r. }
  apply str_exists_strip in Hd'. congruence.
Qed.

Lemma extract_reference_designators_needs_digit_witness :
  extract_reference_designators [(0, ["Item"; "Reference"; "R, C and L"])] 0 = Ok "".
Proof.
  apply (extract_reference_designators_needs_digit
           [(0, ["Item"; "Reference"; "R, C and L"])] 0
           ["Item"; "Reference"; "R, C and L"]).
  - reflexivity.
  - reflexivity.
  - repeat (apply List.Forall_cons; [reflexivity|]). apply List.Forall_nil.
Defined.

Lemma foldl_apply_default_raise (e : exn) (l : list (string * string)) :
  foldl apply_default (Raise e) l = Raise e.
Proof. induction l as [|x l IH]; [done|]. simpl. exact IH. Qed.

Lemma apply_default_list_int (l : list (string * string)) (row : gmap string value)
    (k : string) (z : Z) :
  NoDup l.*1 → k ∈ l.*1 → get row k = VInt z →
  foldl apply_default (Ok row) l = Raise AttributeError.
Proof.
  revert row. induction l as [|[k1 d1] l IH]; intros row Hnd Hk Hz.
  - by apply elem_of_nil in Hk.
  - apply NoDup_cons in Hnd as [Hk1 Hnd]. simpl in Hk. cbn [foldl].
    unfold apply_default at 2. cbn [mbind result_bind fst snd].
    destruct (get row k1) as [s|z1] eqn:Hg; cbn [blank mbind result_bind];
      [|apply foldl_apply_default_raise].
    apply elem_of_cons in Hk as [->|Hk]; [congruence|].
    apply IH; [done..|].
    destruct (negb _); [|done]. unfold get in *.
    rewrite lookup_insert_ne; [done|]. intros ->. by apply Hk1.
Qed.

(** X18. [enhance_component_data] fails on fields that are not text: with
    a non-zero integer under 配置記号 the pattern search raises [TypeError];
    with text under 電子部品型番 and 配置記号 and an integer under one of
    品名, 部品型番, 実装/検査 the emptiness test raises [AttributeError]. *)
Theorem enhance_component_data_not_text (row_data : gmap string value)
    (key : string) (z : Z) :
  get row_data key = VInt z →
  (key = "配置記号" → z ≠ 0 → enhance_component_data row_data = Raise TypeError)
  ∧ (key ∈ default_keys →
     is_text (get row_data "電子部品型番") = true →
     is_text (get row_data "配置記号") = true →
     enhance_component_data row_data = Raise AttributeError).
Proof.
  intros Hz. split.
  - intros -> Hne. unfold enhance_component_data, enhance_with, classify_component.
    rewrite Hz. unfold match_field. cbn [truthy].
    by destruct (Z.eqb_spec z 0).
  - intros Hkey Hpart Href. unfold enhance_component_data, enhance_with.
    destruct (get row_data "電子部品型番") as [part|] eqn:Hp; [|done].
    destruct (get row_data "配置記号") as [ref|] eqn:Hr; [|done].
    destruct (classify_component_text part ref (get row_data "メーカー"))
      as (d & -> & Hdom & _). cbn [mbind result_bind].
    rewrite (apply_default_list_int (map_to_list d) row_data key z); [done| |..|done].
    + apply NoDup_fst_map_to_list.
    + assert (Hin : key ∈ dom d) by (by rewrite Hdom, elem_of_list_to_set).
      apply elem_of_dom in Hin as [x Hx].
      apply list_elem_of_fmap. exists (key, x). split; [done|].
      by apply elem_of_map_to_list.
Qed.

Lemma enhance_component_data_not_text_witness :
  enhance_component_data
    (list_to_map [("電子部品型番", VStr "RK73B2ATTD1002F"); ("品名", VInt 5)])
  = Raise AttributeError.
Proof.
  refine (proj2 (enhance_component_data_not_text
            (list_to_map [("電子部品型番", VStr "RK73B2ATTD1002F"); ("品名", VInt 5)])
            "品名" 5 _) _ _ _).
  - reflexivity.
  - in_list.
  - reflexivity.
  - reflexivity.
Defined.
